(** * pusher-cloudflare: request signing and channel authorization

    A shallow embedding of the classes [Pusher] (module [./pusher]) and
    [PusherAuth] (module [./auth]) and of the types of [./types],
    together with the parts of the JavaScript runtime they call: strings
    as sequences of UTF-16 code units, [TextEncoder], [JSON.stringify],
    [JSON.parse], [URLSearchParams], and the Web Crypto, fetch and clock
    primitives as an injected [Runtime].  An [async] method is a function
    from the log of primitive uses so far to its completion and the
    extended log. *)

From Stdlib Require Import String Ascii.
From Stdlib Require Import Strings.Byte.
From Stdlib Require Import List NArith ZArith Lia Bool.
From Stdlib Require Import DecimalZ DecimalPos DecimalN.
Import ListNotations.

Set Implicit Arguments.
Set Warnings "-register-all".

(** ** JavaScript strings *)

(** A JavaScript string is a sequence of UTF-16 code units. *)
Definition jsstring := list N.

(** An ASCII literal of the source, as a JavaScript string. *)
Definition js (s : string) : jsstring :=
  map N_of_ascii (list_ascii_of_string s).

(** A literal that contains double quotes, written with single quotes in
    their place. *)
Definition jsq (s : string) : jsstring :=
  map (fun c => if (c =? 39)%N then 34%N else c) (js s).

(** [Array.prototype.join] on an array of strings. *)
Fixpoint join (sep : jsstring) (parts : list jsstring) : jsstring :=
  match parts with
  | [] => []
  | [p] => p
  | p :: rest => p ++ sep ++ join sep rest
  end.

(** [!s] for a string: only the empty string is falsy. *)
Definition str_falsy (s : jsstring) : bool :=
  match s with [] => true | _ :: _ => false end.

(** [String.prototype.padStart(len, fill)] with a one-unit filler. *)
Definition padStart (s : jsstring) (len : nat) (fill : N) : jsstring :=
  repeat fill (len - length s) ++ s.

(** ** Numbers rendered as text *)

Definition digit_unit (d : N) : N := 48 + d.

Fixpoint uint_units (u : Decimal.uint) : jsstring :=
  match u with
  | Decimal.Nil => []
  | Decimal.D0 r => digit_unit 0 :: uint_units r
  | Decimal.D1 r => digit_unit 1 :: uint_units r
  | Decimal.D2 r => digit_unit 2 :: uint_units r
  | Decimal.D3 r => digit_unit 3 :: uint_units r
  | Decimal.D4 r => digit_unit 4 :: uint_units r
  | Decimal.D5 r => digit_unit 5 :: uint_units r
  | Decimal.D6 r => digit_unit 6 :: uint_units r
  | Decimal.D7 r => digit_unit 7 :: uint_units r
  | Decimal.D8 r => digit_unit 8 :: uint_units r
  | Decimal.D9 r => digit_unit 9 :: uint_units r
  end.

(** [Number.prototype.toString()] on an integral Number: the decimal
    digits, with a leading minus sign below zero.  This is what the
    engine prints for every integer of magnitude below 10^21, which covers
    [Math.floor(Date.now() / 1000)]. *)
Definition Number_toString (z : Z) : jsstring :=
  match Z.to_int z with
  | Decimal.Pos u => uint_units u
  | Decimal.Neg u => 45%N :: uint_units u
  end.

(** One lowercase hexadecimal digit, ["0123456789abcdef"[d]]. *)
Definition hex_digit (d : N) : N :=
  if (d <? 10)%N then (48 + d)%N else (87 + d)%N.

(** [b.toString(16)] for an element [b] of a [Uint8Array]. *)
Definition toString16 (b : N) : jsstring :=
  if (b <? 16)%N then [hex_digit b]
  else [hex_digit (b / 16); hex_digit (b mod 16)].

(** [arr.map(b => b.toString(16).padStart(2, '0')).join('')]. *)
Definition hex_of_bytes (arr : list byte) : jsstring :=
  join [] (map (fun b => padStart (toString16 (Byte.to_N b)) 2 48%N) arr).

(** ** [TextEncoder.prototype.encode]: UTF-16 to UTF-8 *)

Definition byte_of_N (n : N) : byte :=
  match Byte.of_N (n mod 256) with
  | Some b => b
  | None => x00
  end.

Definition is_lead_surrogate (c : N) : bool :=
  ((55296 <=? c) && (c <=? 56319))%N.

Definition is_trail_surrogate (c : N) : bool :=
  ((56320 <=? c) && (c <=? 57343))%N.

(** The UTF-8 bytes of one Unicode scalar value. *)
Definition utf8_of_code_point (cp : N) : list byte :=
  if (cp <? 128)%N then [byte_of_N cp]
  else if (cp <? 2048)%N then
    [byte_of_N (192 + cp / 64); byte_of_N (128 + cp mod 64)]
  else if (cp <? 65536)%N then
    [byte_of_N (224 + cp / 4096); byte_of_N (128 + (cp / 64) mod 64);
     byte_of_N (128 + cp mod 64)]
  else
    [byte_of_N (240 + cp / 262144); byte_of_N (128 + (cp / 4096) mod 64);
     byte_of_N (128 + (cp / 64) mod 64); byte_of_N (128 + cp mod 64)].

(** U+FFFD, which the encoder emits for an unpaired surrogate. *)
Definition replacement_bytes : list byte := [xef; xbf; xbd].

Fixpoint TextEncoder_encode (s : jsstring) : list byte :=
  match s with
  | [] => []
  | c :: t =>
      if is_lead_surrogate c then
        match t with
        | d :: t' =>
            if is_trail_surrogate d then
              utf8_of_code_point
                (65536 + (c - 55296) * 1024 + (d - 56320))%N
                ++ TextEncoder_encode t'
            else replacement_bytes ++ TextEncoder_encode t
        | [] => replacement_bytes
        end
      else if is_trail_surrogate c then
        replacement_bytes ++ TextEncoder_encode t
      else utf8_of_code_point c ++ TextEncoder_encode t
  end.

(** ** Reference HMAC-SHA256

    The digest the Web Crypto call [sign('HMAC', key, data)] computes for
    a key imported with [{ name: 'HMAC', hash: 'SHA-256' }]: SHA-256 as in
    FIPS 180-4 and the keyed construction of RFC 2104, on 32-bit words
    held in [N] with the wrap-around written out. *)
Module SHA256.
Local Open Scope N_scope.

Definition w32 (x : N) : N := x mod 4294967296.
Definition add32 (x y : N) : N := w32 (x + y).
Definition rotr (n x : N) : N :=
  N.lor (N.shiftr x n) (w32 (N.shiftl x (32 - n))).
Definition not32 (x : N) : N := N.lxor x 4294967295.

Definition Ch (x y z : N) : N := N.lxor (N.land x y) (N.land (not32 x) z).
Definition Maj (x y z : N) : N :=
  N.lxor (N.lxor (N.land x y) (N.land x z)) (N.land y z).
Definition Sigma0 (x : N) : N :=
  N.lxor (N.lxor (rotr 2 x) (rotr 13 x)) (rotr 22 x).
Definition Sigma1 (x : N) : N :=
  N.lxor (N.lxor (rotr 6 x) (rotr 11 x)) (rotr 25 x).
Definition sigma0 (x : N) : N :=
  N.lxor (N.lxor (rotr 7 x) (rotr 18 x)) (N.shiftr x 3).
Definition sigma1 (x : N) : N :=
  N.lxor (N.lxor (rotr 17 x) (rotr 19 x)) (N.shiftr x 10).

(** The round constants of FIPS 180-4, section 4.2.2, in decimal. *)
Definition K : list N :=
  [ 1116352408; 1899447441; 3049323471; 3921009573;
    961987163; 1508970993; 2453635748; 2870763221;
    3624381080; 310598401; 607225278; 1426881987;
    1925078388; 2162078206; 2614888103; 3248222580;
    3835390401; 4022224774; 264347078; 604807628;
    770255983; 1249150122; 1555081692; 1996064986;
    2554220882; 2821834349; 2952996808; 3210313671;
    3336571891; 3584528711; 113926993; 338241895;
    666307205; 773529912; 1294757372; 1396182291;
    1695183700; 1986661051; 2177026350; 2456956037;
    2730485921; 2820302411; 3259730800; 3345764771;
    3516065817; 3600352804; 4094571909; 275423344;
    430227734; 506948616; 659060556; 883997877;
    958139571; 1322822218; 1537002063; 1747873779;
    1955562222; 2024104815; 2227730452; 2361852424;
    2428436474; 2756734187; 3204031479; 3329325298 ].

(** The eight working words. *)
Record regs : Type := Regs
  { ra : N; rb : N; rc : N; rd : N; re : N; rf : N; rg : N; rh : N }.

Definition H0 : regs :=
  Regs 1779033703 3144134277 1013904242 2773480762
       1359893119 2600822924 528734635 1541459225.

(** Message schedule: the sixteen block words extended to sixty-four. *)
Fixpoint schedule (more : nat) (ws : list N) : list N :=
  match more with
  | O => ws
  | S m =>
      let t := length ws in
      let at_ (i : nat) := nth (t - i) ws 0 in
      schedule m
        (ws ++ [add32 (add32 (sigma1 (at_ 2%nat)) (at_ 7%nat))
                      (add32 (sigma0 (at_ 15%nat)) (at_ 16%nat))])
  end.

Definition round (s : regs) (kw : N * N) : regs :=
  let t1 := add32 (add32 (add32 (rh s) (Sigma1 (re s)))
                         (add32 (Ch (re s) (rf s) (rg s)) (fst kw)))
                  (snd kw) in
  let t2 := add32 (Sigma0 (ra s)) (Maj (ra s) (rb s) (rc s)) in
  Regs (add32 t1 t2) (ra s) (rb s) (rc s)
       (add32 (rd s) t1) (re s) (rf s) (rg s).

Definition compress (h : regs) (block : list N) : regs :=
  let s := fold_left round (combine K (schedule 48 block)) h in
  Regs (add32 (ra h) (ra s)) (add32 (rb h) (rb s))
       (add32 (rc h) (rc s)) (add32 (rd h) (rd s))
       (add32 (re h) (re s)) (add32 (rf h) (rf s))
       (add32 (rg h) (rg s)) (add32 (rh h) (rh s)).

Fixpoint chunks {A : Type} (fuel n : nat) (l : list A) : list (list A) :=
  match fuel with
  | O => []
  | S f =>
      match l with
      | [] => []
      | _ :: _ => firstn n l :: chunks f n (skipn n l)
      end
  end.

Definition be_word (bs : list N) : N :=
  fold_left (fun acc b => acc * 256 + b) bs 0.

Definition be_bytes (count : nat) (x : N) : list N :=
  map (fun i => (x / 256 ^ N.of_nat i) mod 256) (rev (seq 0 count)).

(** Padding: the bit 1, zeros to 56 modulo 64, the bit length on 64 bits. *)
Definition pad (msg : list N) : list N :=
  let len := length msg in
  let zeros := ((64 - (len + 9) mod 64) mod 64)%nat in
  msg ++ [128] ++ repeat 0 zeros ++ be_bytes 8 (8 * N.of_nat len).

Definition blocks (msg : list N) : list (list N) :=
  let padded := pad msg in
  let words := map be_word (chunks (length padded) 4 padded) in
  chunks (length words) 16 words.

Definition word_bytes (x : N) : list byte :=
  [byte_of_N (x / 16777216); byte_of_N (x / 65536);
   byte_of_N (x / 256); byte_of_N x].

Definition regs_bytes (s : regs) : list byte :=
  word_bytes (ra s) ++ word_bytes (rb s) ++ word_bytes (rc s)
  ++ word_bytes (rd s) ++ word_bytes (re s) ++ word_bytes (rf s)
  ++ word_bytes (rg s) ++ word_bytes (rh s).

Definition sha256 (msg : list byte) : list byte :=
  regs_bytes (fold_left compress (blocks (map Byte.to_N msg)) H0).

Definition xor_byte (c : N) (b : byte) : byte :=
  byte_of_N (N.lxor (Byte.to_N b) c).

(** RFC 2104 with a 64-byte block: a longer key is hashed first. *)
Definition hmac_sha256 (key msg : list byte) : list byte :=
  let k0 := if (64 <? length key)%nat then sha256 key else key in
  let k := k0 ++ repeat x00 (64 - length k0) in
  sha256 (map (xor_byte 92) k ++ sha256 (map (xor_byte 54) k ++ msg)).
End SHA256.

(** ** JavaScript values and [JSON.stringify] *)

(** Numbers that occur in the modelled programs: integral Numbers, and the
    three non-finite ones, which [JSON.stringify] prints as [null]. *)
Inductive jsnumber : Type :=
| NInt (z : Z)
| NNaN
| NInfinity (negative : bool).

(** A value of type [any].  An object is its own enumerable string-keyed
    properties in enumeration order. *)
Inductive jsvalue : Type :=
| JUndefined
| JNull
| JBool (b : bool)
| JNum (n : jsnumber)
| JStr (s : jsstring)
| JArr (elems : list jsvalue)
| JObj (props : list (jsstring * jsvalue)).

Fixpoint str_eqb (s t : jsstring) : bool :=
  match s, t with
  | [], [] => true
  | c :: s', d :: t' => (c =? d)%N && str_eqb s' t'
  | _, _ => false
  end.

(** [ToBoolean], as applied by [!x], [x && y] and [x || y]. *)
Definition ToBoolean (v : jsvalue) : bool :=
  match v with
  | JUndefined | JNull => false
  | JBool b => b
  | JNum (NInt z) => negb (z =? 0)%Z
  | JNum NNaN => false
  | JNum (NInfinity _) => true
  | JStr s => negb (str_falsy s)
  | JArr _ | JObj _ => true
  end.

Fixpoint lookup_prop (name : jsstring) (props : list (jsstring * jsvalue))
  : option jsvalue :=
  match props with
  | [] => None
  | (k, v) :: rest => if str_eqb k name then Some v else lookup_prop name rest
  end.

(** [v.name] for an own data property of an object; an absent property
    reads as [undefined], as does a name that is neither an index nor
    [length] on a primitive or an array. *)
Definition Get (v : jsvalue) (name : jsstring) : jsvalue :=
  match v with
  | JObj props =>
      match lookup_prop name props with Some x => x | None => JUndefined end
  | _ => JUndefined
  end.

Definition hex4 (c : N) : jsstring :=
  [hex_digit ((c / 4096) mod 16); hex_digit ((c / 256) mod 16);
   hex_digit ((c / 16) mod 16); hex_digit (c mod 16)]%N.

(** [UnicodeEscape]: a backslash, [u], four lowercase hex digits. *)
Definition UnicodeEscape (c : N) : jsstring := 92%N :: 117%N :: hex4 c.

(** One code point that is not a surrogate, as [QuoteJSONString] writes
    it. *)
Definition quote_unit (c : N) : jsstring :=
  if (c =? 8)%N then [92; 98]%N            (* \b *)
  else if (c =? 9)%N then [92; 116]%N      (* \t *)
  else if (c =? 10)%N then [92; 110]%N     (* \n *)
  else if (c =? 12)%N then [92; 102]%N     (* \f *)
  else if (c =? 13)%N then [92; 114]%N     (* \r *)
  else if (c =? 34)%N then [92; 34]%N      (* backslash, quote *)
  else if (c =? 92)%N then [92; 92]%N      (* two backslashes *)
  else if (c <? 32)%N then UnicodeEscape c
  else [c].

Fixpoint quote_units (s : jsstring) : jsstring :=
  match s with
  | [] => []
  | c :: t =>
      if is_lead_surrogate c then
        match t with
        | d :: t' =>
            if is_trail_surrogate d then c :: d :: quote_units t'
            else UnicodeEscape c ++ quote_units t
        | [] => UnicodeEscape c
        end
      else if is_trail_surrogate c then UnicodeEscape c ++ quote_units t
      else quote_unit c ++ quote_units t
  end.

Definition QuoteJSONString (s : jsstring) : jsstring :=
  34%N :: quote_units s ++ [34%N].

(** [SerializeJSONProperty] without replacer or indentation; [None] is
    the result [undefined]. *)
Fixpoint SerializeJSONProperty (v : jsvalue) : option jsstring :=
  match v with
  | JUndefined => None
  | JNull => Some (js "null")
  | JBool b => Some (if b then js "true" else js "false")
  | JNum (NInt z) => Some (Number_toString z)
  | JNum _ => Some (js "null")
  | JStr s => Some (QuoteJSONString s)
  | JArr elems =>
      Some (js "[" ++
            join (js ",")
              (map (fun e =>
                      match SerializeJSONProperty e with
                      | Some t => t
                      | None => js "null"
                      end) elems)
            ++ js "]")
  | JObj props =>
      Some (js "{" ++
            join (js ",")
              (flat_map (fun kv =>
                           match SerializeJSONProperty (snd kv) with
                           | Some t => [QuoteJSONString (fst kv) ++ js ":" ++ t]
                           | None => []
                           end) props)
            ++ js "}")
  end.

Definition JSON_stringify (v : jsvalue) : option jsstring :=
  SerializeJSONProperty v.

(** [`${x}`] for the result of [JSON.stringify]. *)
Definition template_of (x : option jsstring) : jsstring :=
  match x with Some s => s | None => js "undefined" end.

(** ** [URLSearchParams] *)

(** The list of name-value pairs a [URLSearchParams] object holds. *)
Definition URLSearchParams := list (jsstring * jsstring).

(** [set(name, value)]: the first pair named [name] takes the value and
    the later ones go; without one the pair is appended. *)
Fixpoint usp_remove (name : jsstring) (q : URLSearchParams) : URLSearchParams :=
  match q with
  | [] => []
  | (k, v) :: rest =>
      if str_eqb k name then usp_remove name rest
      else (k, v) :: usp_remove name rest
  end.

Fixpoint usp_set (q : URLSearchParams) (name value : jsstring)
  : URLSearchParams :=
  match q with
  | [] => [(name, value)]
  | (k, v) :: rest =>
      if str_eqb k name then (k, value) :: usp_remove name rest
      else (k, v) :: usp_set rest name value
  end.

Definition hex_digit_upper (d : N) : N :=
  if (d <? 10)%N then (48 + d)%N else (55 + d)%N.

(** The application/x-www-form-urlencoded byte serializer. *)
Definition urlencode_byte (b : N) : jsstring :=
  if (b =? 32)%N then [43%N]
  else if ((b =? 42) || (b =? 45) || (b =? 46) || (b =? 95)
           || ((48 <=? b) && (b <=? 57))
           || ((65 <=? b) && (b <=? 90))
           || ((97 <=? b) && (b <=? 122)))%N
  then [b]
  else [37%N; hex_digit_upper (b / 16); hex_digit_upper (b mod 16)].

Definition urlencode (s : jsstring) : jsstring :=
  flat_map (fun b => urlencode_byte (Byte.to_N b)) (TextEncoder_encode s).

(** [toString()], which a template literal applies to the object. *)
Definition usp_toString (q : URLSearchParams) : jsstring :=
  join (js "&")
    (map (fun nv => urlencode (fst nv) ++ js "=" ++ urlencode (snd nv)) q).

(** ** Effects: promises over an injected runtime *)

(** What a [catch] clause can tell about the value it caught: an [Error]
    with its message, or something that is not an [Error]. *)
Inductive thrown : Type :=
| JsError (message : jsstring)
| JsNonError.

(** How an awaited call ends: with a value, or rejected. *)
Inductive completion (A : Type) : Type :=
| Normal (a : A)
| Throw (e : thrown).
Arguments Normal {A} a.
Arguments Throw {A} e.

(** A key imported for HMAC with SHA-256, not extractable, usage [sign]. *)
Inductive CryptoKey : Type :=
| HmacSha256Key (material : list byte).

(** The second argument of [fetch]. *)
Record RequestInit : Type := mkRequestInit
  { init_method : jsstring;
    init_headers : list (jsstring * jsstring);
    init_body : option jsstring }.

(** What the classes read of a [Response]: [ok], [status], [statusText]
    and how [text()] and [json()] settle. *)
Record Response : Type := mkResponse
  { resp_ok : bool;
    resp_status : Z;
    resp_statusText : jsstring;
    resp_text : completion jsstring;
    resp_json : completion jsvalue }.

(** The ambient primitives of the Workers runtime, each with the
    arguments the two classes pass:
    [crypto.subtle.importKey('raw', raw, { name: 'HMAC', hash: 'SHA-256' },
    false, ['sign'])], [crypto.subtle.sign('HMAC', key, data)],
    [crypto.subtle.digest(algorithm, data)], [fetch(url, init)] and
    [Date.now()].  A primitive settles the same way whenever it gets the
    same arguments; the clock stands still during one call. *)
Class Runtime : Type := mkRuntime
  { subtle_importKey : list byte -> completion CryptoKey;
    subtle_sign : CryptoKey -> list byte -> completion (list byte);
    subtle_digest : jsstring -> list byte -> completion (list byte);
    global_fetch : jsstring -> RequestInit -> completion Response;
    Date_now : Z }.

(** Every use of a runtime primitive, in program order. *)
Inductive event : Type :=
| EvImportKey (raw : list byte)
| EvSign (key : CryptoKey) (data : list byte)
| EvDigest (algorithm : jsstring) (data : list byte)
| EvWarn (message : jsstring)
| EvFetch (url : jsstring) (init : RequestInit).

(** An [async] computation: it extends the log of primitive uses and
    settles. *)
Definition Async (A : Type) : Type :=
  list event -> completion A * list event.

(** [return a], [throw e], and [await] followed by the rest of the body:
    a rejection skips the rest and keeps the log. *)
Definition ret {A : Type} (a : A) : Async A := fun tr => (Normal a, tr).

Definition throw {A : Type} (e : thrown) : Async A := fun tr => (Throw e, tr).

Definition bind {A B : Type} (c : Async A) (k : A -> Async B) : Async B :=
  fun tr =>
    match c tr with
    | (Normal a, tr') => k a tr'
    | (Throw e, tr') => (Throw e, tr')
    end.

(** [try { body } catch (e) { handler }]. *)
Definition try_catch {A : Type} (body : Async A) (handler : thrown -> Async A)
  : Async A :=
  fun tr =>
    match body tr with
    | (Normal a, tr') => (Normal a, tr')
    | (Throw e, tr') => handler e tr'
    end.

(** A primitive use: logged, then settled as the runtime says. *)
Definition prim {A : Type} (ev : event) (result : completion A) : Async A :=
  fun tr => (result, tr ++ [ev]).

Notation "x <- c ;; k" := (bind c (fun x => k))
  (at level 61, c at next level, right associativity).

Section Primitives.
Context {rt : Runtime}.

Definition importKey (raw : list byte) : Async CryptoKey :=
  prim (EvImportKey raw) (subtle_importKey raw).

Definition sign (key : CryptoKey) (data : list byte) : Async (list byte) :=
  prim (EvSign key data) (subtle_sign key data).

Definition digest (algorithm : jsstring) (data : list byte)
  : Async (list byte) :=
  prim (EvDigest algorithm data) (subtle_digest algorithm data).

Definition console_warn (message : jsstring) : Async unit :=
  prim (EvWarn message) (Normal tt).

Definition fetch (url : jsstring) (init : RequestInit) : Async Response :=
  prim (EvFetch url init) (global_fetch url init).

(** [await response.text()] and [response.json()]. *)
Definition response_text (r : Response) : Async jsstring :=
  fun tr => (resp_text r, tr).

Definition response_json (r : Response) : Async jsvalue :=
  fun tr => (resp_json r, tr).
End Primitives.

(** The HMAC the runtime computes: import the key, then sign. *)
Definition subtle_hmac {rt : Runtime} (raw data : list byte)
  : completion (list byte) :=
  match subtle_importKey raw with
  | Normal k => subtle_sign k data
  | Throw e => Throw e
  end.

(** ** The types of [./types]

    An optional field is an [option].  [PresenceMemberData] has no record
    of its own: [authenticatePresenceChannel] tests its argument and the
    [user_id] in it at run time and serializes whatever object it is
    given, so the argument is a [jsvalue]. *)

Record PusherConfig : Type := mkPusherConfig
  { cfg_appId : jsstring;
    cfg_key : jsstring;
    cfg_secret : jsstring;
    cfg_cluster : option jsstring;
    cfg_useTLS : option bool }.

Record TriggerOptions : Type := mkTriggerOptions
  { opt_channels : jsstring + list jsstring;
    opt_event : jsstring;
    opt_data : jsvalue;
    opt_socketId : option jsstring }.

Record BatchTriggerEvent : Type := mkBatchTriggerEvent
  { ev_channel : jsstring;
    ev_name : jsstring;
    ev_data : jsvalue;
    ev_socketId : option jsstring }.

Record TriggerResponse : Type := mkTriggerResponse
  { success : bool;
    error : option jsstring;
    status : option Z }.

Record AuthResponse : Type := mkAuthResponse
  { auth : jsstring;
    channel_data : option jsstring;
    shared_secret : option jsstring }.

Record ChannelInfoOptions : Type := mkChannelInfoOptions
  { info : option (list jsstring) }.

(** The two overloads of [trigger]. *)
Inductive TriggerCall : Type :=
| TriggerPositional (channels : jsstring + list jsstring) (event : jsstring)
    (data : jsvalue) (socketId : option jsstring)
| TriggerWithOptions (options : TriggerOptions).

(** ** Helpers shared by the two classes *)

(** The line feed that a template literal writes for [\n]. *)
Definition nl : jsstring := [10%N].

(** The property [socket_id] a payload gets from a truthy socket id. *)
Definition socket_id_prop (s : option jsstring) : list (jsstring * jsvalue) :=
  match s with
  | Some x => if str_falsy x then [] else [(js "socket_id", JStr x)]
  | None => []
  end.

(** [Array.isArray(x) ? x : [x]]. *)
Definition as_array (x : jsstring + list jsstring) : list jsstring :=
  match x with inl s => [s] | inr l => l end.

(** [typeof d === 'string' ? d : JSON.stringify(d)], as a property value. *)
Definition data_field (d : jsvalue) : jsvalue :=
  match d with
  | JStr s => JStr s
  | _ => match JSON_stringify d with Some t => JStr t | None => JUndefined end
  end.

(** [JSON.stringify] of an object literal, which is always a string. *)
Definition stringify_object (props : list (jsstring * jsvalue)) : jsstring :=
  template_of (JSON_stringify (JObj props)).

(** [error instanceof Error ? error.message : 'Unknown error']. *)
Definition message_of (e : thrown) : jsstring :=
  match e with JsError m => m | JsNonError => js "Unknown error" end.

(** [{ 'Content-Type': 'application/json' }]. *)
Definition json_headers : list (jsstring * jsstring) :=
  [(js "Content-Type", js "application/json")].

(** [Math.floor(Date.now() / 1000)]. *)
Definition unix_seconds {rt : Runtime} : Z := (Date_now / 1000)%Z.

(** ** Class [PusherAuth] of [./auth] *)
Module PusherAuth.
Record t : Type := mk { key : jsstring; secret : jsstring }.

Definition constructor (key secret : jsstring) : t := mk key secret.

Section Methods.
Context {rt : Runtime}.
Variable this : t.

Definition computeHMAC (data : jsstring) : Async jsstring :=
  let encodedData := TextEncoder_encode data in
  let encodedSecret := TextEncoder_encode (secret this) in
  k <- importKey encodedSecret ;;
  signatureBuffer <- sign k encodedData ;;
  ret (hex_of_bytes signatureBuffer).

Definition authorizeChannel (socketId channel : jsstring)
  : Async AuthResponse :=
  if str_falsy socketId || str_falsy channel then
    throw (JsError
             (js "Socket ID and channel are required for authorization"))
  else
    let stringToSign := socketId ++ js ":" ++ channel in
    signature <- computeHMAC stringToSign ;;
    let auth := key this ++ js ":" ++ signature in
    ret (mkAuthResponse auth None None).

Definition authenticatePresenceChannel (socketId channel : jsstring)
    (presenceData : jsvalue) : Async AuthResponse :=
  if str_falsy socketId || str_falsy channel
     || negb (ToBoolean presenceData) then
    throw (JsError
             (js "Socket ID, channel, and presence data are required"))
  else if negb (ToBoolean (Get presenceData (js "user_id"))) then
    throw (JsError (js "user_id is required in presence data"))
  else
    let channelData := JSON_stringify presenceData in
    let stringToSign :=
      socketId ++ js ":" ++ channel ++ js ":" ++ template_of channelData in
    signature <- computeHMAC stringToSign ;;
    let auth := key this ++ js ":" ++ signature in
    ret (mkAuthResponse auth channelData None).
End Methods.
End PusherAuth.

(** ** Class [Pusher] of [./pusher] *)
Module Pusher.
Record t : Type := mk
  { appId : jsstring;
    key : jsstring;
    secret : jsstring;
    cluster : jsstring;
    useTLS : bool;
    baseUrl : jsstring }.

Definition constructor (config : PusherConfig) : completion t :=
  if str_falsy (cfg_appId config) || str_falsy (cfg_key config)
     || str_falsy (cfg_secret config) then
    Throw (JsError (js "Pusher config requires appId, key, and secret"))
  else
    let cluster :=
      match cfg_cluster config with
      | Some c => if str_falsy c then js "mt1" else c
      | None => js "mt1"
      end in
    let useTLS :=
      match cfg_useTLS config with Some false => false | _ => true end in
    let protocol := if useTLS then js "https" else js "http" in
    Normal (mk (cfg_appId config) (cfg_key config) (cfg_secret config)
               cluster useTLS
               (protocol ++ js "://api-" ++ cluster ++ js ".pusher.com")).

Section Methods.
Context {rt : Runtime}.
Variable this : t.

Definition computeMD5 (str : jsstring) : Async jsstring :=
  let data := TextEncoder_encode str in
  try_catch
    (hashBuffer <- digest (js "MD5") data ;;
     ret (hex_of_bytes hashBuffer))
    (fun _ =>
       _ <- console_warn (js "MD5 not available, using empty hash") ;;
       ret []).

(** The array joined with [&] in [createSignature]. *)
Definition signed_pairs (timestamp : Z) (md5 : option jsstring)
  : list jsstring :=
  [js "auth_key=" ++ key this;
   js "auth_timestamp=" ++ Number_toString timestamp;
   js "auth_version=1.0"]
  ++ (match md5 with
      | Some m => if str_falsy m then [] else [js "body_md5=" ++ m]
      | None => []
      end).

(** [stringToSign] of [createSignature]. *)
Definition stringToSign (method path : jsstring) (timestamp : Z)
    (md5 : option jsstring) : jsstring :=
  let queryParams := join (js "&") (signed_pairs timestamp md5) in
  method ++ nl ++ path ++ nl ++ queryParams.

Definition createSignature (method path : jsstring) (timestamp : Z)
    (body md5 : option jsstring) : Async jsstring :=
  let encodedData :=
    TextEncoder_encode (stringToSign method path timestamp md5) in
  let encodedSecret := TextEncoder_encode (secret this) in
  k <- importKey encodedSecret ;;
  signatureBuffer <- sign k encodedData ;;
  ret (hex_of_bytes signatureBuffer).

Definition computeHMAC (data : jsstring) : Async jsstring :=
  let encodedData := TextEncoder_encode data in
  let encodedSecret := TextEncoder_encode (secret this) in
  k <- importKey encodedSecret ;;
  signatureBuffer <- sign k encodedData ;;
  ret (hex_of_bytes signatureBuffer).

(** [new URLSearchParams({...})] of the two write calls. *)
Definition write_query (timestamp : Z) (md5 signature : jsstring)
  : URLSearchParams :=
  [(js "auth_key", key this);
   (js "auth_timestamp", Number_toString timestamp);
   (js "auth_version", js "1.0");
   (js "body_md5", md5);
   (js "auth_signature", signature)].

(** [payload] of [trigger], after the overload is resolved. *)
Definition trigger_payload (call : TriggerCall)
  : list (jsstring * jsvalue) :=
  let '(channels, eventName, eventData, excludeSocketId) :=
    match call with
    | TriggerWithOptions options =>
        (as_array (opt_channels options), opt_event options,
         opt_data options, opt_socketId options)
    | TriggerPositional channels event data socketId =>
        (as_array channels, event, data, socketId)
    end in
  [(js "name", JStr eventName);
   (js "data", data_field eventData);
   (js "channels", JArr (map JStr channels))]
  ++ socket_id_prop excludeSocketId.

Definition trigger (call : TriggerCall) : Async TriggerResponse :=
  let timestamp := unix_seconds in
  let body := stringify_object (trigger_payload call) in
  try_catch
    (md5 <- computeMD5 body ;;
     signature <- createSignature (js "POST")
                    (js "/apps/" ++ appId this ++ js "/events")
                    timestamp (Some body) (Some md5) ;;
     let query := write_query timestamp md5 signature in
     let url := baseUrl this ++ js "/apps/" ++ appId this
                ++ js "/events?" ++ usp_toString query in
     response <- fetch url
                   (mkRequestInit (js "POST") json_headers (Some body)) ;;
     if negb (resp_ok response) then
       errorText <- response_text response ;;
       ret (mkTriggerResponse false
              (Some (if str_falsy errorText
                     then js "HTTP "
                          ++ Number_toString (resp_status response)
                     else errorText))
              (Some (resp_status response)))
     else
       _ <- response_text response ;;
       ret (mkTriggerResponse true None None))
    (fun e => ret (mkTriggerResponse false (Some (message_of e)) None)).

Definition batch_entry (event : BatchTriggerEvent) : jsvalue :=
  JObj ([(js "channel", JStr (ev_channel event));
         (js "name", JStr (ev_name event));
         (js "data", data_field (ev_data event))]
        ++ socket_id_prop (ev_socketId event)).

Definition triggerBatch (events : list BatchTriggerEvent)
  : Async TriggerResponse :=
  let timestamp := unix_seconds in
  let batch := map batch_entry events in
  let body := stringify_object [(js "batch", JArr batch)] in
  try_catch
    (md5 <- computeMD5 body ;;
     signature <- createSignature (js "POST")
                    (js "/apps/" ++ appId this ++ js "/batch_events")
                    timestamp (Some body) (Some md5) ;;
     let query := write_query timestamp md5 signature in
     let url := baseUrl this ++ js "/apps/" ++ appId this
                ++ js "/batch_events?" ++ usp_toString query in
     response <- fetch url
                   (mkRequestInit (js "POST") json_headers (Some body)) ;;
     if negb (resp_ok response) then
       errorText <- response_text response ;;
       ret (mkTriggerResponse false
              (Some (if str_falsy errorText
                     then js "HTTP "
                          ++ Number_toString (resp_status response)
                     else errorText))
              (Some (resp_status response)))
     else
       _ <- response_text response ;;
       ret (mkTriggerResponse true None None))
    (fun e => ret (mkTriggerResponse false (Some (message_of e)) None)).

Definition authorizeChannel (socketId channel : jsstring)
  : Async AuthResponse :=
  if str_falsy socketId || str_falsy channel then
    throw (JsError
             (js "Socket ID and channel are required for authorization"))
  else
    let stringToSign := socketId ++ js ":" ++ channel in
    signature <- computeHMAC stringToSign ;;
    let auth := key this ++ js ":" ++ signature in
    ret (mkAuthResponse auth None None).

Definition authenticatePresenceChannel (socketId channel : jsstring)
    (presenceData : jsvalue) : Async AuthResponse :=
  if str_falsy socketId || str_falsy channel
     || negb (ToBoolean presenceData) then
    throw (JsError
             (js "Socket ID, channel, and presence data are required"))
  else if negb (ToBoolean (Get presenceData (js "user_id"))) then
    throw (JsError (js "user_id is required in presence data"))
  else
    let channelData := JSON_stringify presenceData in
    let stringToSign :=
      socketId ++ js ":" ++ channel ++ js ":" ++ template_of channelData in
    signature <- computeHMAC stringToSign ;;
    let auth := key this ++ js ":" ++ signature in
    ret (mkAuthResponse auth channelData None).

(** [...(options?.info && { info: options.info.join(',') })]. *)
Definition info_entry (options : option ChannelInfoOptions)
  : URLSearchParams :=
  match options with
  | Some o =>
      match info o with
      | Some l => [(js "info", join (js ",") l)]
      | None => []
      end
  | None => []
  end.

(** [...(prefix && { filter_by_prefix: prefix })]. *)
Definition prefix_entry (prefix : option jsstring) : URLSearchParams :=
  match prefix with
  | Some p => if str_falsy p then [] else [(js "filter_by_prefix", p)]
  | None => []
  end.

(** [query] of [getChannel] when the request is sent. *)
Definition getChannel_query (timestamp : Z)
    (options : option ChannelInfoOptions) (signature : jsstring)
  : URLSearchParams :=
  usp_set ([(js "auth_key", key this);
            (js "auth_timestamp", Number_toString timestamp);
            (js "auth_version", js "1.0")]
           ++ info_entry options)
    (js "auth_signature") signature.

Definition getChannel (channel : jsstring)
    (options : option ChannelInfoOptions) : Async jsvalue :=
  let timestamp := unix_seconds in
  let path := js "/apps/" ++ appId this ++ js "/channels/" ++ channel in
  signature <- createSignature (js "GET") path timestamp None None ;;
  let query := getChannel_query timestamp options signature in
  let url := baseUrl this ++ path ++ js "?" ++ usp_toString query in
  response <- fetch url (mkRequestInit (js "GET") json_headers None) ;;
  if negb (resp_ok response) then
    error <- response_text response ;;
    throw (JsError (js "Failed to get channel info: "
                    ++ (if str_falsy error
                        then resp_statusText response else error)))
  else response_json response.

(** [query] of [getChannels] when the request is sent. *)
Definition getChannels_query (timestamp : Z) (prefix : option jsstring)
    (options : option ChannelInfoOptions) (signature : jsstring)
  : URLSearchParams :=
  usp_set ([(js "auth_key", key this);
            (js "auth_timestamp", Number_toString timestamp);
            (js "auth_version", js "1.0")]
           ++ prefix_entry prefix ++ info_entry options)
    (js "auth_signature") signature.

Definition getChannels (prefix : option jsstring)
    (options : option ChannelInfoOptions) : Async jsvalue :=
  let timestamp := unix_seconds in
  let path := js "/apps/" ++ appId this ++ js "/channels" in
  signature <- createSignature (js "GET") path timestamp None None ;;
  let query := getChannels_query timestamp prefix options signature in
  let url := baseUrl this ++ path ++ js "?" ++ usp_toString query in
  response <- fetch url (mkRequestInit (js "GET") json_headers None) ;;
  if negb (resp_ok response) then
    error <- response_text response ;;
    throw (JsError (js "Failed to get channels: "
                    ++ (if str_falsy error
                        then resp_statusText response else error)))
  else response_json response.
End Methods.
End Pusher.

(** ** [JSON.parse]

    The parser the subscribing side applies to [channel_data], on the
    values of this model: number literals with a fraction or an exponent,
    and [-0], denote Numbers outside [jsnumber] and are not read.  [None]
    is a thrown [SyntaxError]. *)

Definition is_ws (c : N) : bool :=
  ((c =? 32) || (c =? 9) || (c =? 10) || (c =? 13))%N.

Fixpoint skip_ws (s : jsstring) : jsstring :=
  match s with
  | [] => []
  | c :: t => if is_ws c then skip_ws t else s
  end.

Definition is_digit (c : N) : bool := ((48 <=? c) && (c <=? 57))%N.

Definition hex_value (c : N) : option N :=
  if ((48 <=? c) && (c <=? 57))%N then Some (c - 48)%N
  else if ((97 <=? c) && (c <=? 102))%N then Some (c - 87)%N
  else if ((65 <=? c) && (c <=? 70))%N then Some (c - 55)%N
  else None.

(** The character a one-letter escape stands for. *)
Definition unescape (e : N) : option N :=
  if (e =? 34)%N then Some 34%N
  else if (e =? 92)%N then Some 92%N
  else if (e =? 47)%N then Some 47%N
  else if (e =? 98)%N then Some 8%N
  else if (e =? 102)%N then Some 12%N
  else if (e =? 110)%N then Some 10%N
  else if (e =? 114)%N then Some 13%N
  else if (e =? 116)%N then Some 9%N
  else None.

Definition prepend (c : N) (r : option (jsstring * jsstring))
  : option (jsstring * jsstring) :=
  match r with
  | Some (str, rest) => Some (c :: str, rest)
  | None => None
  end.

(** A string literal after its opening quote: the string and what
    follows the closing quote. *)
Fixpoint parse_string_body (s : jsstring) : option (jsstring * jsstring) :=
  match s with
  | [] => None
  | c :: t =>
      if (c =? 34)%N then Some ([], t)
      else if (c =? 92)%N then
        match t with
        | [] => None
        | e :: t' =>
            if (e =? 117)%N then
              match t' with
              | h1 :: h2 :: h3 :: h4 :: t'' =>
                  match hex_value h1, hex_value h2,
                        hex_value h3, hex_value h4 with
                  | Some a, Some b, Some c', Some d =>
                      prepend (a * 4096 + b * 256 + c' * 16 + d)%N
                        (parse_string_body t'')
                  | _, _, _, _ => None
                  end
              | _ => None
              end
            else
              match unescape e with
              | Some u => prepend u (parse_string_body t')
              | None => None
              end
        end
      else if (c <? 32)%N then None
      else prepend c (parse_string_body t)
  end.

Definition cons_digit (c : N) (u : Decimal.uint) : Decimal.uint :=
  if (c =? 48)%N then Decimal.D0 u
  else if (c =? 49)%N then Decimal.D1 u
  else if (c =? 50)%N then Decimal.D2 u
  else if (c =? 51)%N then Decimal.D3 u
  else if (c =? 52)%N then Decimal.D4 u
  else if (c =? 53)%N then Decimal.D5 u
  else if (c =? 54)%N then Decimal.D6 u
  else if (c =? 55)%N then Decimal.D7 u
  else if (c =? 56)%N then Decimal.D8 u
  else Decimal.D9 u.

(** The longest run of digits at the head. *)
Fixpoint parse_digits (s : jsstring) : Decimal.uint * jsstring :=
  match s with
  | [] => (Decimal.Nil, [])
  | c :: t =>
      if is_digit c then
        let (u, rest) := parse_digits t in (cons_digit c u, rest)
      else (Decimal.Nil, s)
  end.

(** After the integer part: a fraction or an exponent. *)
Definition continues_number (rest : jsstring) : bool :=
  match rest with
  | c :: _ => ((c =? 46) || (c =? 101) || (c =? 69))%N
  | [] => false
  end.

Definition parse_number (s : jsstring) : option (jsvalue * jsstring) :=
  let (negative, s1) :=
    match s with
    | c :: t => if (c =? 45)%N then (true, t) else (false, s)
    | [] => (false, s)
    end in
  let (u, rest) := parse_digits s1 in
  match u with
  | Decimal.Nil => None
  | Decimal.D0 Decimal.Nil =>
      if negative || continues_number rest then None
      else Some (JNum (NInt 0), rest)
  | Decimal.D0 _ => None
  | _ =>
      if continues_number rest then None
      else Some (JNum (NInt (Z.of_int (if negative then Decimal.Neg u
                                       else Decimal.Pos u))), rest)
  end.

Fixpoint strip_prefix (prefix s : jsstring) : option jsstring :=
  match prefix, s with
  | [], _ => Some s
  | p :: prefix', c :: s' =>
      if (p =? c)%N then strip_prefix prefix' s' else None
  | _ :: _, [] => None
  end.

(** [CreateDataProperty] on an ordinary object: a present key takes the
    new value in place, a new key goes last. *)
Fixpoint define_prop (props : list (jsstring * jsvalue)) (k : jsstring)
    (v : jsvalue) : list (jsstring * jsvalue) :=
  match props with
  | [] => [(k, v)]
  | (k', v') :: rest =>
      if str_eqb k' k then (k', v) :: rest
      else (k', v') :: define_prop rest k v
  end.

Definition build_object (members : list (jsstring * jsvalue))
  : list (jsstring * jsvalue) :=
  fold_left (fun props kv => define_prop props (fst kv) (snd kv)) members [].

(** A value, the elements of an array up to its closing bracket, and the
    members of an object up to its closing brace.  The fuel bounds the
    number of nested calls; [JSON_parse] gives more than the text can
    use. *)
Fixpoint parse_value (fuel : nat) (s : jsstring)
  : option (jsvalue * jsstring) :=
  match fuel with
  | O => None
  | S f =>
      match skip_ws s with
      | [] => None
      | c :: t =>
          if (c =? 34)%N then
            match parse_string_body t with
            | Some (str, rest) => Some (JStr str, rest)
            | None => None
            end
          else if (c =? 91)%N then
            match skip_ws t with
            | [] => None
            | d :: t' =>
                if (d =? 93)%N then Some (JArr [], t')
                else
                  match parse_elements f t with
                  | Some (elems, rest) => Some (JArr elems, rest)
                  | None => None
                  end
            end
          else if (c =? 123)%N then
            match skip_ws t with
            | [] => None
            | d :: t' =>
                if (d =? 125)%N then Some (JObj [], t')
                else
                  match parse_members f t with
                  | Some (members, rest) =>
                      Some (JObj (build_object members), rest)
                  | None => None
                  end
            end
          else if (c =? 110)%N then
            match strip_prefix (js "ull") t with
            | Some rest => Some (JNull, rest)
            | None => None
            end
          else if (c =? 116)%N then
            match strip_prefix (js "rue") t with
            | Some rest => Some (JBool true, rest)
            | None => None
            end
          else if (c =? 102)%N then
            match strip_prefix (js "alse") t with
            | Some rest => Some (JBool false, rest)
            | None => None
            end
          else parse_number (c :: t)
      end
  end
with parse_elements (fuel : nat) (s : jsstring)
  : option (list jsvalue * jsstring) :=
  match fuel with
  | O => None
  | S f =>
      match parse_value f s with
      | None => None
      | Some (v, rest) =>
          match skip_ws rest with
          | [] => None
          | c :: rest' =>
              if (c =? 93)%N then Some ([v], rest')
              else if (c =? 44)%N then
                match parse_elements f rest' with
                | Some (elems, rest'') => Some (v :: elems, rest'')
                | None => None
                end
              else None
          end
      end
  end
with parse_members (fuel : nat) (s : jsstring)
  : option (list (jsstring * jsvalue) * jsstring) :=
  match fuel with
  | O => None
  | S f =>
      match skip_ws s with
      | [] => None
      | q :: t =>
          if (q =? 34)%N then
            match parse_string_body t with
            | None => None
            | Some (k, rest) =>
                match skip_ws rest with
                | [] => None
                | colon :: rest' =>
                    if (colon =? 58)%N then
                      match parse_value f rest' with
                      | None => None
                      | Some (v, rest'') =>
                          match skip_ws rest'' with
                          | [] => None
                          | c :: rest3 =>
                              if (c =? 125)%N then Some ([(k, v)], rest3)
                              else if (c =? 44)%N then
                                match parse_members f rest3 with
                                | Some (members, rest4) =>
                                    Some ((k, v) :: members, rest4)
                                | None => None
                                end
                              else None
                          end
                      end
                    else None
                end
            end
          else None
      end
  end.

(** [JSON.parse(text)]: one value, then only white space. *)
Definition JSON_parse (text : jsstring) : option jsvalue :=
  match parse_value (S (length text)) text with
  | Some (v, rest) =>
      match skip_ws rest with [] => Some v | _ :: _ => None end
  | None => None
  end.

(** ** Runtimes *)

(** A runtime whose [sign] is HMAC-SHA256 under the imported key.  Web
    Crypto refuses to import an HMAC key of length zero. *)
Definition computes_hmac_sha256 (rt : Runtime) : Prop :=
  forall raw data,
    raw <> [] -> subtle_hmac raw data = Normal (SHA256.hmac_sha256 raw data).

(** A runtime with the reference HMAC-SHA256 and SHA-256; [md5] is the
    MD5 digest where the runtime has one. *)
Definition reference_runtime (md5 : option (list byte -> list byte))
    (server : jsstring -> RequestInit -> completion Response) (now : Z)
  : Runtime :=
  {| subtle_importKey raw :=
       match raw with
       | [] => Throw (JsError (js "Zero-length key is not supported"))
       | _ :: _ => Normal (HmacSha256Key raw)
       end;
     subtle_sign k data :=
       match k with
       | HmacSha256Key raw => Normal (SHA256.hmac_sha256 raw data)
       end;
     subtle_digest algorithm data :=
       if str_eqb algorithm (js "SHA-256") then Normal (SHA256.sha256 data)
       else if str_eqb algorithm (js "MD5") then
         match md5 with
         | Some f => Normal (f data)
         | None => Throw (JsError (js "Unrecognized algorithm name"))
         end
       else Throw (JsError (js "Unrecognized algorithm name"));
     global_fetch := server;
     Date_now := now |}.

(** A server that accepts every request with an empty JSON object. *)
Definition ok_server (url : jsstring) (init : RequestInit)
  : completion Response :=
  Normal (mkResponse true 200 (js "OK") (Normal (js "{}")) (Normal (JObj []))).

(** A Workers-like runtime without MD5, at 2023-11-14T22:13:20.500Z. *)
Definition workers_runtime : Runtime :=
  reference_runtime None ok_server 1700000000500.

(** A runtime whose key import fails. *)
Definition broken_runtime : Runtime :=
  {| subtle_importKey _ := Throw (JsError (js "key import failed"));
     subtle_sign _ _ := Throw (JsError (js "sign failed"));
     subtle_digest _ _ := Throw (JsError (js "Unrecognized algorithm name"));
     global_fetch := ok_server;
     Date_now := 1700000000500 |}.

(** ** Vocabulary of the statements *)

(** *** Results and logs *)

(** The value of a completion under [f]; a rejection stays as it is. *)
Definition completion_map {A B : Type} (f : A -> B) (c : completion A)
  : completion B :=
  match c with Normal a => Normal (f a) | Throw e => Throw e end.

(** The primitive uses of one HMAC computation: the key import and,
    after a successful import, one signing. *)
Definition hmac_events {rt : Runtime} (raw data : list byte) : list event :=
  EvImportKey raw ::
  match subtle_importKey raw with
  | Normal k => [EvSign k data]
  | Throw _ => []
  end.


(** The key imports and the signing operations of a log, counted. *)
Definition is_import (e : event) : bool :=
  match e with EvImportKey _ => true | _ => false end.

Definition is_sign (e : event) : bool :=
  match e with EvSign _ _ => true | _ => false end.

Definition count_imports (tr : list event) : nat :=
  length (filter is_import tr).

Definition count_signs (tr : list event) : nat := length (filter is_sign tr).

(** One more key import and at most one more signing than before. *)
Definition one_hmac_attempt (before after : list event) : Prop :=
  count_imports after = S (count_imports before)
  /\ count_signs after <= S (count_signs before).

(** A call that is rejected with an [Error] and uses no primitive. *)
Definition rejected_untouched {A : Type} (c : Async A) (tr : list event)
  : Prop :=
  exists message, c tr = (Throw (JsError message), tr).

(** The call ends by throwing [e], after one attempt. *)
Definition throws_once {A : Type} (call : Async A) (tr : list event)
    (e : thrown) : Prop :=
  fst (call tr) = Throw e /\ one_hmac_attempt tr (snd (call tr)).

(** The call ends with the failure-shaped result, after one attempt. *)
Definition reports_once (call : Async TriggerResponse) (tr : list event)
    (e : thrown) : Prop :=
  fst (call tr) = Normal (mkTriggerResponse false (Some (message_of e)) None)
  /\ one_hmac_attempt tr (snd (call tr)).


(** A lowercase hexadecimal digit: [0-9] or [a-f]. *)
Definition is_lower_hex (c : N) : bool :=
  (((48 <=? c) && (c <=? 57)) || ((97 <=? c) && (c <=? 102)))%N.

(** The two units written for the byte [b] are lowercase hex digits. *)
Definition byte_hex_ok (b : byte) : bool :=
  match padStart (toString16 (Byte.to_N b)) 2 48%N with
  | [h; l] => is_lower_hex h && is_lower_hex l
  | _ => false
  end.

(** *** The canonical strings of the specification *)

(** The canonical query string in the specification's words: the pairs
    [auth_key], [auth_timestamp], [auth_version] and, only for a digest
    that is present and not empty, [body_md5], joined with [&] in that
    order. *)
Definition canonical_query (key : jsstring) (timestamp : Z)
    (bodyDigest : option jsstring) : jsstring :=
  js "auth_key=" ++ key
  ++ js "&auth_timestamp=" ++ Number_toString timestamp
  ++ js "&auth_version=1.0"
  ++ match bodyDigest with
     | Some (c :: d) => js "&body_md5=" ++ c :: d
     | _ => []
     end.

(** [stringToSign] in the specification's words. *)
Definition canonical_request (method path key : jsstring) (timestamp : Z)
    (bodyDigest : option jsstring) : jsstring :=
  method ++ nl ++ path ++ nl ++ canonical_query key timestamp bodyDigest.

(** The token of a private channel in the specification's words. *)
Definition private_token (key secret socketId channel : jsstring)
  : AuthResponse :=
  mkAuthResponse
    (key ++ js ":"
     ++ hex_of_bytes
          (SHA256.hmac_sha256 (TextEncoder_encode secret)
             (TextEncoder_encode (socketId ++ js ":" ++ channel))))
    None None.

(** The token of a presence channel in the specification's words. *)
Definition presence_token (key secret socketId channel channelData : jsstring)
  : AuthResponse :=
  mkAuthResponse
    (key ++ js ":"
     ++ hex_of_bytes
          (SHA256.hmac_sha256 (TextEncoder_encode secret)
             (TextEncoder_encode
                (socketId ++ js ":" ++ channel ++ js ":" ++ channelData))))
    (Some channelData) None.





(** *** The runs of the REST calls *)

Section RestModel.
Context {rt : Runtime}.
Variable this : Pusher.t.

(** What [computeMD5] returns: the hex digest, or [''] when the runtime
    rejects MD5. *)
Definition computed_md5 (body : jsstring) : jsstring :=
  match subtle_digest (js "MD5") (TextEncoder_encode body) with
  | Normal h => hex_of_bytes h
  | Throw _ => []
  end.

(** The primitive uses of [computeMD5]: the digest and, when it is
    rejected, the warning. *)
Definition md5_events (body : jsstring) : list event :=
  EvDigest (js "MD5") (TextEncoder_encode body) ::
  match subtle_digest (js "MD5") (TextEncoder_encode body) with
  | Normal _ => []
  | Throw _ => [EvWarn (js "MD5 not available, using empty hash")]
  end.

(** The bytes a write call has signed. *)
Definition write_signed (endpoint body : jsstring) : list byte :=
  TextEncoder_encode
    (Pusher.stringToSign this (js "POST")
       (js "/apps/" ++ Pusher.appId this ++ endpoint) unix_seconds
       (Some (computed_md5 body))).

(** The URL a write call fetches. *)
Definition write_url (endpoint body signature : jsstring) : jsstring :=
  Pusher.baseUrl this ++ js "/apps/" ++ Pusher.appId this
  ++ (endpoint ++ js "?")
  ++ usp_toString
       (Pusher.write_query this unix_seconds (computed_md5 body) signature).

(** What a write call makes of the settled [fetch]. *)
Definition write_outcome (fetched : completion Response) : TriggerResponse :=
  match fetched with
  | Throw e => mkTriggerResponse false (Some (message_of e)) None
  | Normal response =>
      match resp_text response with
      | Throw e => mkTriggerResponse false (Some (message_of e)) None
      | Normal text =>
          if resp_ok response then mkTriggerResponse true None None
          else mkTriggerResponse false
                 (Some (if str_falsy text
                        then js "HTTP "
                             ++ Number_toString (resp_status response)
                        else text))
                 (Some (resp_status response))
      end
  end.

(** The run of a write call to [endpoint] with [body]. *)
Definition write_run (endpoint body : jsstring) (tr : list event)
  : completion TriggerResponse * list event :=
  let secretBytes := TextEncoder_encode (Pusher.secret this) in
  let signed := write_signed endpoint body in
  match subtle_hmac secretBytes signed with
  | Throw e =>
      (Normal (mkTriggerResponse false (Some (message_of e)) None),
       tr ++ md5_events body ++ hmac_events secretBytes signed)
  | Normal sig =>
      let url := write_url endpoint body (hex_of_bytes sig) in
      let init := mkRequestInit (js "POST") json_headers (Some body) in
      (Normal (write_outcome (global_fetch url init)),
       tr ++ md5_events body ++ hmac_events secretBytes signed
          ++ [EvFetch url init])
  end.

(** What a read call makes of the settled [fetch]. *)
Definition read_outcome (failure : jsstring) (fetched : completion Response)
  : completion jsvalue :=
  match fetched with
  | Throw e => Throw e
  | Normal response =>
      if resp_ok response then resp_json response
      else match resp_text response with
           | Throw e => Throw e
           | Normal text =>
               Throw (JsError
                        (failure
                         ++ (if str_falsy text
                             then resp_statusText response else text)))
           end
  end.

(** The run of a read call that sends [query] to [path]. *)
Definition read_run (failure path : jsstring)
    (query : jsstring -> URLSearchParams) (tr : list event)
  : completion jsvalue * list event :=
  let secretBytes := TextEncoder_encode (Pusher.secret this) in
  let signed :=
    TextEncoder_encode
      (Pusher.stringToSign this (js "GET") path unix_seconds None) in
  match subtle_hmac secretBytes signed with
  | Throw e => (Throw e, tr ++ hmac_events secretBytes signed)
  | Normal sig =>
      let url := Pusher.baseUrl this ++ path ++ js "?"
                 ++ usp_toString (query (hex_of_bytes sig)) in
      let init := mkRequestInit (js "GET") json_headers None in
      (read_outcome failure (global_fetch url init),
       tr ++ hmac_events secretBytes signed ++ [EvFetch url init])
  end.

End RestModel.

(** *** Claims that the code does not meet, as predicates *)

(** The claim for one call: a failing signing primitive makes the call
    end by throwing. *)
Definition surfaces_crypto_failure {A : Type} (rt : Runtime)
    (secret : jsstring) (call : Async A) : Prop :=
  forall e,
    (forall data, subtle_hmac (TextEncoder_encode secret) data = Throw e) ->
    forall tr, fst (call tr) = Throw e.


(** *** Member data and JSON texts *)

(** Member data of the type [PresenceMemberData] with a non-empty
    [user_id]. *)
Definition has_user_id (presenceData : jsvalue) : Prop :=
  exists props u,
    presenceData = JObj props
    /\ lookup_prop (js "user_id") props = Some (JStr u) /\ u <> [].

(** [k] is among the keys of [props]. *)
Fixpoint has_key (k : jsstring) (props : list (jsstring * jsvalue)) : bool :=
  match props with
  | [] => false
  | (k', _) :: rest => str_eqb k' k || has_key k rest
  end.

(** No key occurs twice, as in every object. *)
Fixpoint distinct_keys (props : list (jsstring * jsvalue)) : bool :=
  match props with
  | [] => true
  | (k, _) :: rest => negb (has_key k rest) && distinct_keys rest
  end.

(** Values that [JSON.stringify] writes without loss: no [undefined], no
    Number that is not finite, integers in the safe range, and objects
    whose keys are distinct. *)
Fixpoint json_representable (v : jsvalue) : bool :=
  match v with
  | JUndefined => false
  | JNull | JBool _ | JStr _ => true
  | JNum (NInt z) => (Z.abs z <=? 9007199254740991)%Z
  | JNum _ => false
  | JArr elems => forallb json_representable elems
  | JObj props =>
      distinct_keys props
      && forallb (fun kv => json_representable (snd kv)) props
  end.

(** What may follow a value inside a text: nothing, a comma, or a
    closing bracket or brace. *)
Definition delimited (rest : jsstring) : Prop :=
  match rest with
  | [] => True
  | c :: _ => c = 44%N \/ c = 93%N \/ c = 125%N
  end.

(** A text that starts a value: its first unit is neither white space
    nor a closing bracket. *)
Definition value_head (s : jsstring) : Prop :=
  exists c t, s = c :: t /\ is_ws c = false /\ c <> 93%N.

(** The text [s] of [v] is read back as [v], whatever delimited text
    follows it and with any fuel above its length. *)
Definition reads_back (v : jsvalue) (s : jsstring) : Prop :=
  value_head s
  /\ forall fuel rest,
       length s < fuel -> delimited rest ->
       parse_value fuel (s ++ rest) = Some (v, rest).

(** The two functions [SerializeJSONProperty] maps over the elements and
    the properties. *)
Definition render_element (e : jsvalue) : jsstring :=
  match SerializeJSONProperty e with Some t => t | None => js "null" end.

Definition render_member (kv : jsstring * jsvalue) : list jsstring :=
  match SerializeJSONProperty (snd kv) with
  | Some t => [QuoteJSONString (fst kv) ++ js ":" ++ t]
  | None => []
  end.

(** Induction on a value with the hypothesis for every element of an
    array and every property value of an object. *)
Section NestedInduction.
Variable P : jsvalue -> Prop.
Hypothesis P_undefined : P JUndefined.
Hypothesis P_null : P JNull.
Hypothesis P_bool : forall b, P (JBool b).
Hypothesis P_num : forall n, P (JNum n).
Hypothesis P_str : forall s, P (JStr s).
Hypothesis P_arr : forall elems, Forall P elems -> P (JArr elems).
Hypothesis P_obj :
  forall props, Forall (fun kv => P (snd kv)) props -> P (JObj props).

Fixpoint jsvalue_nested_ind (v : jsvalue) : P v :=
  match v with
  | JUndefined => P_undefined
  | JNull => P_null
  | JBool b => P_bool b
  | JNum n => P_num n
  | JStr s => P_str s
  | JArr elems =>
      P_arr
        ((fix all (l : list jsvalue) : Forall P l :=
            match l with
            | [] => Forall_nil P
            | x :: r => Forall_cons x (jsvalue_nested_ind x) (all r)
            end) elems)
  | JObj props =>
      P_obj
        ((fix all (l : list (jsstring * jsvalue))
            : Forall (fun kv => P (snd kv)) l :=
            match l with
            | [] => Forall_nil _
            | (k, x) :: r =>
                @Forall_cons _ (fun kv => P (snd kv)) (k, x) r
                  (jsvalue_nested_ind x) (all r)
            end) props)
  end.
End NestedInduction.

(** *** Sample values *)

(** The credentials of the documented signature example. *)
Definition demo_config : PusherConfig :=
  mkPusherConfig (js "123456") (js "278d425bdf160c739803")
    (js "7ad3773142a6692b25b8") None None.

(** The instance [new Pusher(demo_config)]. *)
Definition demo_pusher : Pusher.t :=
  Pusher.mk (js "123456") (js "278d425bdf160c739803")
    (js "7ad3773142a6692b25b8") (js "mt1") true
    (js "https://api-mt1.pusher.com").

(** Another instance with the same key and secret. *)
Definition demo_pusher_eu : Pusher.t :=
  Pusher.mk (js "987") (js "278d425bdf160c739803")
    (js "7ad3773142a6692b25b8") (js "eu") false
    (js "http://api-eu.pusher.com").

(** The member data of the documented signature example. *)
Definition mr_pusher : jsvalue :=
  JObj [(js "user_id", JStr (js "10"));
        (js "user_info", JObj [(js "name", JStr (js "Mr. Pusher"))])].



(** [trigger('my-channel', 'my-event', { message: 'Hello World!' })]. *)
Definition hello_call : TriggerCall :=
  TriggerPositional (inl (js "my-channel")) (js "my-event")
    (JObj [(js "message", JStr (js "Hello World!"))]) None.


Arguments js : simpl never.

(** *** Vocabulary of the further properties *)

(** The requests of a log, counted. *)
Definition is_fetch (e : event) : bool :=
  match e with EvFetch _ _ => true | _ => false end.

Definition count_fetches (tr : list event) : nat :=
  length (filter is_fetch tr).

(** The primitive uses of a log that are neither a key import nor a
    signing: digests, warnings and requests. *)
Definition count_others (tr : list event) : nat :=
  length (filter (fun e => negb (is_import e || is_sign e)) tr).

(** A code unit that the form-urlencoded serializer writes as it is:
    an ASCII letter or digit, or one of [*], [-], [.], [_]. *)
Definition url_safe_unit (c : N) : bool :=
  ((c =? 42) || (c =? 45) || (c =? 46) || (c =? 95)
   || ((48 <=? c) && (c <=? 57))
   || ((65 <=? c) && (c <=? 90))
   || ((97 <=? c) && (c <=? 122)))%N.

Definition url_safe (s : jsstring) : bool := forallb url_safe_unit s.

(** The properties that [JSON.stringify] writes: those whose value is not
    [undefined]. *)
Definition is_undefined (v : jsvalue) : bool :=
  match v with JUndefined => true | _ => false end.

Definition defined_props (props : list (jsstring * jsvalue))
  : list (jsstring * jsvalue) :=
  filter (fun kv => negb (is_undefined (snd kv))) props.

(** An entry of a batch as it appears in the body. *)
Definition written_entry (entry : jsvalue) : jsvalue :=
  match entry with
  | JObj props => JObj (defined_props props)
  | v => v
  end.

(** The byte that two hexadecimal digits stand for. *)
Definition byte_of_hex_pair (h l : N) : option byte :=
  match hex_value h, hex_value l with
  | Some a, Some b => Some (byte_of_N (a * 16 + b))
  | _, _ => None
  end.

(** A server that refuses every request: 401 with an empty body. *)
Definition refusing_server (url : jsstring) (init : RequestInit)
  : completion Response :=
  Normal (mkResponse false 401 (js "Unauthorized") (Normal [])
            (Normal JNull)).

(** A Workers-like runtime in front of the refusing server. *)
Definition refused_runtime : Runtime :=
  reference_runtime None refusing_server 1700000000500.

(** [body] of [trigger] and of [triggerBatch]. *)
Definition trigger_body (call : TriggerCall) : jsstring :=
  stringify_object (Pusher.trigger_payload call).

Definition batch_body (events : list BatchTriggerEvent) : jsstring :=
  stringify_object [(js "batch", JArr (map Pusher.batch_entry events))].

(** The [init] of the request of a write call and of a read call. *)
Definition post_init (body : jsstring) : RequestInit :=
  mkRequestInit (js "POST") json_headers (Some body).

Definition get_init : RequestInit :=
  mkRequestInit (js "GET") json_headers None.

(** A write call goes through: the request is signed, the server answers
    it with an [ok] response, and the text of the response can be read. *)
Definition accepted {rt : Runtime} (this : Pusher.t)
    (endpoint body : jsstring) : Prop :=
  exists sig response text,
    subtle_hmac (TextEncoder_encode (Pusher.secret this))
      (write_signed this endpoint body) = Normal sig
    /\ global_fetch (write_url this endpoint body (hex_of_bytes sig))
         (post_init body) = Normal response
    /\ resp_ok response = true
    /\ resp_text response = Normal text.

(** A write call is answered with a response that is not [ok], of status
    [st] and readable text [text]. *)
Definition refused {rt : Runtime} (this : Pusher.t)
    (endpoint body : jsstring) (st : Z) (text : jsstring) : Prop :=
  exists sig response,
    subtle_hmac (TextEncoder_encode (Pusher.secret this))
      (write_signed this endpoint body) = Normal sig
    /\ global_fetch (write_url this endpoint body (hex_of_bytes sig))
         (post_init body) = Normal response
    /\ resp_ok response = false
    /\ resp_status response = st
    /\ resp_text response = Normal text.

(** The URL of a read call. *)
Definition read_url (this : Pusher.t) (path : jsstring)
    (query : URLSearchParams) : jsstring :=
  Pusher.baseUrl this ++ path ++ js "?" ++ usp_toString query.

(** The requests of a log, in order. *)
Definition fetches (tr : list event) : list event := filter is_fetch tr.

(** The text of the unsigned pairs of a read call, as the URL has it. *)
Definition info_text (options : option ChannelInfoOptions) : jsstring :=
  match options with
  | Some o =>
      match info o with
      | Some l => js "&info=" ++ urlencode (join (js ",") l)
      | None => []
      end
  | None => []
  end.

Definition prefix_text (prefix : option jsstring) : jsstring :=
  match prefix with
  | Some (c :: r) => js "&filter_by_prefix=" ++ urlencode (c :: r)
  | _ => []
  end.

(** A request as the Pusher REST protocol reads it: sent to [path] of the
    base URL, its query is the canonical query, then the text [unsigned]
    of the pairs outside the signature, then [auth_signature], which is
    the reference HMAC-SHA256 of the canonical request in lowercase
    hex. *)
Definition signed_request (this : Pusher.t) (method path : jsstring)
    (timestamp : Z) (md5 : option jsstring) (unsigned : jsstring)
    (init : RequestInit) : event :=
  EvFetch
    (Pusher.baseUrl this ++ path ++ js "?"
     ++ canonical_query (Pusher.key this) timestamp md5
     ++ unsigned
     ++ js "&auth_signature="
     ++ hex_of_bytes
          (SHA256.hmac_sha256 (TextEncoder_encode (Pusher.secret this))
             (TextEncoder_encode
                (canonical_request method path (Pusher.key this) timestamp
                   md5))))
    init.

(** What the two authorization methods of a class do with their
    arguments: each rejection of the validation is told by its message and
    the untouched log, and happens exactly for the arguments it names; the
    first check of [authenticatePresenceChannel] goes before the second;
    and no call digests, warns or sends a request. *)
Definition validates_then_signs
    (authorizeChannel : jsstring -> jsstring -> Async AuthResponse)
    (authenticatePresenceChannel :
       jsstring -> jsstring -> jsvalue -> Async AuthResponse) : Prop :=
  forall (socketId channel : jsstring) (presenceData : jsvalue)
         (tr : list event),
    (authorizeChannel socketId channel tr
     = (Throw (JsError
                 (js "Socket ID and channel are required for authorization")),
        tr)
     <-> socketId = [] \/ channel = [])
    /\ (authenticatePresenceChannel socketId channel presenceData tr
        = (Throw (JsError
                    (js "Socket ID, channel, and presence data are required")),
           tr)
        <-> socketId = [] \/ channel = [] \/ ToBoolean presenceData = false)
    /\ (authenticatePresenceChannel socketId channel presenceData tr
        = (Throw (JsError (js "user_id is required in presence data")), tr)
        <-> socketId <> [] /\ channel <> []
            /\ ToBoolean presenceData = true
            /\ ToBoolean (Get presenceData (js "user_id")) = false)
    /\ count_others (snd (authorizeChannel socketId channel tr))
       = count_others tr
    /\ count_others
         (snd (authenticatePresenceChannel socketId channel presenceData tr))
       = count_others tr.

(** The bytes that a text of hexadecimal digit pairs stands for. *)
Fixpoint bytes_of_hex (s : jsstring) : option (list byte) :=
  match s with
  | [] => Some []
  | h :: l :: rest =>
      match byte_of_hex_pair h l, bytes_of_hex rest with
      | Some b, Some bs => Some (b :: bs)
      | _, _ => None
      end
  | [_] => None
  end.

(** The two units written for the byte [b] stand for [b]. *)
Definition byte_hex_inverts (b : byte) : bool :=
  match padStart (toString16 (Byte.to_N b)) 2 48%N with
  | [h; l] =>
      match byte_of_hex_pair h l with
      | Some b' => Byte.eqb b' b
      | None => false
      end
  | _ => false
  end.

(** The digest that [createSignature] takes into account: an absent one
    counts as the empty one. *)
Definition effective_digest (md5 : option jsstring) : jsstring :=
  match md5 with Some m => m | None => [] end.

(** A runtime whose [digest] accepts the name MD5.  The sixteen bytes it
    gives are the head of the SHA-256 digest: the classes only write the
    bytes in hex, so any digest function serves. *)
Definition digesting_runtime : Runtime :=
  reference_runtime (Some (fun data => firstn 16 (SHA256.sha256 data)))
    ok_server 1700000000500.

(** [{ info: ['user_count', 'subscription_count'] }]. *)
Definition two_counts : option ChannelInfoOptions :=
  Some (mkChannelInfoOptions
          (Some [js "user_count"; js "subscription_count"])).

(** A request to the REST interface of the application of [config]: its
    URL starts with the host of the cluster and [/apps/<appId>/]. *)
Definition on_app_endpoint (config : PusherConfig) (e : event) : Prop :=
  exists rest init,
    e = EvFetch
          ((match cfg_useTLS config with
            | Some false => js "http"
            | _ => js "https"
            end)
           ++ js "://api-"
           ++ (match cfg_cluster config with
               | Some (c :: r) => c :: r
               | _ => js "mt1"
               end)
           ++ js ".pusher.com/apps/" ++ cfg_appId config ++ js "/" ++ rest)
          init.

(** ** Checks of the model on known values *)

Example encode_ascii :
  TextEncoder_encode (js "GET") = [x47; x45; x54].
Proof. reflexivity. Qed.

Example hex_of_bytes_pads :
  hex_of_bytes [x00; x0a; xff] = js "000aff".
Proof. reflexivity. Qed.

Example Number_toString_examples :
  Number_toString 1700000000 = js "1700000000" /\
  Number_toString 0 = js "0" /\ Number_toString (-12) = js "-12".
Proof. repeat split; reflexivity. Qed.

(** FIPS 180-4 test vector for ["abc"]. *)
Example sha256_abc :
  hex_of_bytes (SHA256.sha256 (TextEncoder_encode (js "abc")))
  = js "ba7816bf8f01cfea414140de5dae2223b00361a396177a9cb410ff61f20015ad".
Proof. vm_compute. reflexivity. Qed.

(** RFC 4231 test case 6: a key longer than the block is hashed first. *)
Example hmac_sha256_rfc4231_6 :
  hex_of_bytes
    (SHA256.hmac_sha256 (repeat xaa 131)
       (TextEncoder_encode
          (js "Test Using Larger Than Block-Size Key - Hash Key First")))
  = js "60e431591ee0b67f0d8a26aacbf5b77f8e0bc6213728c5140546040f0ee37f54".
Proof. vm_compute. reflexivity. Qed.

(** RFC 4231 test case 2 (key ["Jefe"]). *)
Example hmac_sha256_rfc4231_2 :
  hex_of_bytes
    (SHA256.hmac_sha256 (TextEncoder_encode (js "Jefe"))
       (TextEncoder_encode (js "what do ya want for nothing?")))
  = js "5bdcc146bf60754e6a042426089575c75a003f089d2739839dec58b964ec3843".
Proof. vm_compute. reflexivity. Qed.

Example stringify_member_data :
  JSON_stringify
    (JObj [(js "user_id", JStr (js "10"));
           (js "user_info", JObj [(js "name", JStr (js "Mr. Pusher"))])])
  = Some (jsq "{'user_id':'10','user_info':{'name':'Mr. Pusher'}}").
Proof. reflexivity. Qed.

Example usp_toString_example :
  usp_toString [(js "auth_version", js "1.0"); (js "info", js "a,b c")]
  = js "auth_version=1.0&info=a%2Cb+c".
Proof. reflexivity. Qed.

Example parse_member_data :
  JSON_parse (jsq "{'user_id':'u1','user_info':{'name':'A'}}")
  = Some (JObj [(js "user_id", JStr (js "u1"));
                (js "user_info", JObj [(js "name", JStr (js "A"))])]).
Proof. vm_compute. reflexivity. Qed.

Example parse_mixed :
  JSON_parse (jsq " { 'a' : [1, -20, true, null, 'x\nA'] , 'a': false } ")
  = Some (JObj [(js "a", JBool false)])
  /\ JSON_parse (jsq "[1,]") = None
  /\ JSON_parse (jsq "01") = None
  /\ JSON_parse (jsq "{'a':1} x") = None.
Proof. vm_compute. repeat split; reflexivity. Qed.

(** ** Basic facts *)

Lemma reference_runtime_computes_hmac md5 server now :
  computes_hmac_sha256 (reference_runtime md5 server now).
Proof.
  intros raw data Hraw. unfold subtle_hmac. simpl.
  destruct raw as [|b raw']; [congruence | reflexivity].
Qed.

Lemma utf8_of_code_point_nonempty cp : utf8_of_code_point cp <> [].
Proof.
  unfold utf8_of_code_point.
  repeat match goal with |- context [if ?c then _ else _] => destruct c end;
    discriminate.
Qed.

Lemma app_nonempty_l {A : Type} (l r : list A) : l <> [] -> l ++ r <> [].
Proof. destruct l; [congruence | discriminate]. Qed.

Lemma replacement_bytes_nonempty : replacement_bytes <> [].
Proof. discriminate. Qed.

Lemma TextEncoder_encode_nonempty s : s <> [] -> TextEncoder_encode s <> [].
Proof.
  destruct s as [|c t]; [congruence | intros _].
  cbn [TextEncoder_encode].
  destruct (is_lead_surrogate c).
  - destruct t as [|d t']; [apply replacement_bytes_nonempty|].
    destruct (is_trail_surrogate d); apply app_nonempty_l;
      [apply utf8_of_code_point_nonempty | apply replacement_bytes_nonempty].
  - destruct (is_trail_surrogate c); apply app_nonempty_l;
      [apply replacement_bytes_nonempty | apply utf8_of_code_point_nonempty].
Qed.

Lemma str_falsy_false s : s <> [] -> str_falsy s = false.
Proof. destruct s; [congruence | reflexivity]. Qed.

Lemma str_falsy_true s : str_falsy s = true <-> s = [].
Proof. destruct s; simpl; split; congruence. Qed.

Lemma join_empty_sep (parts : list jsstring) : join [] parts = concat parts.
Proof.
  induction parts as [|p rest IH]; [reflexivity|].
  destruct rest as [|q rest'].
  - simpl. now rewrite app_nil_r.
  - change (join [] (p :: q :: rest')) with (p ++ [] ++ join [] (q :: rest')).
    rewrite IH. reflexivity.
Qed.

Lemma byte_hex_ok_all (b : byte) : byte_hex_ok b = true.
Proof. destruct b; vm_compute; reflexivity. Qed.

Lemma byte_hex_shape (b : byte) :
  exists h l,
    padStart (toString16 (Byte.to_N b)) 2 48%N = [h; l]
    /\ is_lower_hex h = true /\ is_lower_hex l = true.
Proof.
  pose proof (byte_hex_ok_all b) as H. unfold byte_hex_ok in H.
  destruct (padStart (toString16 (Byte.to_N b)) 2 48%N)
    as [|h [|l [|x r]]]; try discriminate.
  apply andb_true_iff in H. exists h, l. tauto.
Qed.

Lemma hex_of_bytes_length arr : length (hex_of_bytes arr) = 2 * length arr.
Proof.
  unfold hex_of_bytes. rewrite join_empty_sep.
  induction arr as [|b arr IH]; [reflexivity|].
  destruct (byte_hex_shape b) as (h & l & E & _).
  cbn [map concat]. rewrite E. cbn [app length]. rewrite IH. simpl. lia.
Qed.

Lemma hex_of_bytes_lower arr : forallb is_lower_hex (hex_of_bytes arr) = true.
Proof.
  unfold hex_of_bytes. rewrite join_empty_sep.
  induction arr as [|b arr IH]; [reflexivity|].
  destruct (byte_hex_shape b) as (h & l & E & Hh & Hl).
  cbn [map concat]. rewrite E. cbn [app forallb]. now rewrite Hh, Hl, IH.
Qed.

Lemma sha256_length msg : length (SHA256.sha256 msg) = 32.
Proof. reflexivity. Qed.

Lemma hmac_sha256_length k msg : length (SHA256.hmac_sha256 k msg) = 32.
Proof. apply sha256_length. Qed.

(** ** How the signing methods run *)

Ltac run_hmac :=
  unfold bind, importKey, sign, prim, ret, subtle_hmac, hmac_events,
    completion_map;
  repeat match goal with
    | |- context [subtle_importKey ?raw] =>
        destruct (subtle_importKey raw); cbn [fst snd]
    | |- context [subtle_sign ?k ?d] =>
        destruct (subtle_sign k d); cbn [fst snd]
    end;
  rewrite <- ?app_assoc; try reflexivity.

Section SigningRuns.
Context {rt : Runtime}.

Lemma Pusher_computeHMAC_run (this : Pusher.t) data tr :
  Pusher.computeHMAC this data tr
  = (completion_map hex_of_bytes
       (subtle_hmac (TextEncoder_encode (Pusher.secret this))
          (TextEncoder_encode data)),
     tr ++ hmac_events (TextEncoder_encode (Pusher.secret this))
             (TextEncoder_encode data)).
Proof. unfold Pusher.computeHMAC. run_hmac. Qed.

Lemma PusherAuth_computeHMAC_run (this : PusherAuth.t) data tr :
  PusherAuth.computeHMAC this data tr
  = (completion_map hex_of_bytes
       (subtle_hmac (TextEncoder_encode (PusherAuth.secret this))
          (TextEncoder_encode data)),
     tr ++ hmac_events (TextEncoder_encode (PusherAuth.secret this))
             (TextEncoder_encode data)).
Proof. unfold PusherAuth.computeHMAC. run_hmac. Qed.

Lemma createSignature_run (this : Pusher.t) method path timestamp body md5
    tr :
  Pusher.createSignature this method path timestamp body md5 tr
  = (completion_map hex_of_bytes
       (subtle_hmac (TextEncoder_encode (Pusher.secret this))
          (TextEncoder_encode
             (Pusher.stringToSign this method path timestamp md5))),
     tr ++ hmac_events (TextEncoder_encode (Pusher.secret this))
             (TextEncoder_encode
                (Pusher.stringToSign this method path timestamp md5))).
Proof. unfold Pusher.createSignature. run_hmac. Qed.
End SigningRuns.

(** ** The request signer against the specification's canonical string *)

Lemma signed_pairs_canonical (this : Pusher.t) timestamp md5 :
  join (js "&") (Pusher.signed_pairs this timestamp md5)
  = canonical_query (Pusher.key this) timestamp md5.
Proof.
  unfold Pusher.signed_pairs, canonical_query.
  destruct md5 as [[|c d]|]; cbn [str_falsy app join];
    rewrite <- ?app_assoc; reflexivity.
Qed.

Lemma stringToSign_canonical (this : Pusher.t) method path timestamp md5 :
  Pusher.stringToSign this method path timestamp md5
  = canonical_request method path (Pusher.key this) timestamp md5.
Proof.
  unfold Pusher.stringToSign, canonical_request.
  now rewrite signed_pairs_canonical.
Qed.

Example demo_pusher_constructed :
  Pusher.constructor demo_config = Normal demo_pusher.
Proof. reflexivity. Qed.

(** C1. [createSignature] signs [method + "\n" + path + "\n" + query],
    where the query is [auth_key], [auth_timestamp], [auth_version] and,
    only for a non-empty digest, [body_md5], joined with [&] in that
    order; what it returns is the runtime's HMAC of the UTF-8 bytes of
    that string under the secret, in lowercase hex, which on a runtime
    that implements HMAC-SHA256 is the reference HMAC-SHA256; with an
    absent or empty digest the query ends at [auth_version=1.0]. *)
Theorem createSignature_signs_canonical_request
    (rt : Runtime) (this : Pusher.t) (method path : jsstring)
    (timestamp : Z) (body md5 : option jsstring) (tr : list event) :
  let canonical :=
    canonical_request method path (Pusher.key this) timestamp md5 in
  let secretBytes := TextEncoder_encode (Pusher.secret this) in
  Pusher.stringToSign this method path timestamp md5 = canonical
  /\ fst (Pusher.createSignature this method path timestamp body md5 tr)
     = completion_map hex_of_bytes
         (subtle_hmac secretBytes (TextEncoder_encode canonical))
  /\ (computes_hmac_sha256 rt -> Pusher.secret this <> [] ->
      fst (Pusher.createSignature this method path timestamp body md5 tr)
      = Normal (hex_of_bytes
                  (SHA256.hmac_sha256 secretBytes
                     (TextEncoder_encode canonical))))
  /\ (md5 = None \/ md5 = Some [] ->
      canonical_query (Pusher.key this) timestamp md5
      = js "auth_key=" ++ Pusher.key this
        ++ js "&auth_timestamp=" ++ Number_toString timestamp
        ++ js "&auth_version=1.0").
Proof.
  intros canonical secretBytes.
  pose proof (stringToSign_canonical this method path timestamp md5) as Hs.
  rewrite createSignature_run, Hs. cbn [fst].
  repeat split.
  - intros Hrt Hsecret. fold canonical secretBytes.
    rewrite (Hrt secretBytes (TextEncoder_encode canonical)); [reflexivity|].
    now apply TextEncoder_encode_nonempty.
  - intros [-> | ->]; unfold canonical_query;
      now rewrite !app_nil_r.
Qed.

Lemma createSignature_signs_canonical_request_witness :
  fst (Pusher.createSignature (rt := workers_runtime) demo_pusher
         (js "POST") (js "/apps/123456/events") 1700000000 None
         (Some (js "0123456789abcdef0123456789abcdef")) [])
  = Normal
      (js "c2ce48f1042c3415fc6f527a6087b1b3d1fb9c4ae77365bdbee6e37d9545e6ab").
Proof.
  destruct (createSignature_signs_canonical_request workers_runtime
              demo_pusher (js "POST") (js "/apps/123456/events") 1700000000
              None (Some (js "0123456789abcdef0123456789abcdef")) [])
    as (_ & _ & H & _).
  rewrite H.
  - vm_compute. reflexivity.
  - apply reference_runtime_computes_hmac.
  - discriminate.
Defined.

(** ** Channel authorization *)

Section AuthorizationRuns.
Context {rt : Runtime}.

Lemma Pusher_authorizeChannel_run (p : Pusher.t) sid ch tr :
  sid <> [] -> ch <> [] ->
  Pusher.authorizeChannel p sid ch tr
  = (completion_map
       (fun sig =>
          mkAuthResponse (Pusher.key p ++ js ":" ++ hex_of_bytes sig)
            None None)
       (subtle_hmac (TextEncoder_encode (Pusher.secret p))
          (TextEncoder_encode (sid ++ js ":" ++ ch))),
     tr ++ hmac_events (TextEncoder_encode (Pusher.secret p))
             (TextEncoder_encode (sid ++ js ":" ++ ch))).
Proof.
  intros Hs Hc. unfold Pusher.authorizeChannel.
  rewrite (str_falsy_false Hs), (str_falsy_false Hc). cbn [orb].
  unfold bind at 1. rewrite Pusher_computeHMAC_run.
  destruct (subtle_hmac _ _); reflexivity.
Qed.

Lemma PusherAuth_authorizeChannel_run (a : PusherAuth.t) sid ch tr :
  sid <> [] -> ch <> [] ->
  PusherAuth.authorizeChannel a sid ch tr
  = (completion_map
       (fun sig =>
          mkAuthResponse (PusherAuth.key a ++ js ":" ++ hex_of_bytes sig)
            None None)
       (subtle_hmac (TextEncoder_encode (PusherAuth.secret a))
          (TextEncoder_encode (sid ++ js ":" ++ ch))),
     tr ++ hmac_events (TextEncoder_encode (PusherAuth.secret a))
             (TextEncoder_encode (sid ++ js ":" ++ ch))).
Proof.
  intros Hs Hc. unfold PusherAuth.authorizeChannel.
  rewrite (str_falsy_false Hs), (str_falsy_false Hc). cbn [orb].
  unfold bind at 1. rewrite PusherAuth_computeHMAC_run.
  destruct (subtle_hmac _ _); reflexivity.
Qed.

Lemma Pusher_presence_run (p : Pusher.t) sid ch pd tr :
  sid <> [] -> ch <> [] -> ToBoolean pd = true ->
  ToBoolean (Get pd (js "user_id")) = true ->
  Pusher.authenticatePresenceChannel p sid ch pd tr
  = (completion_map
       (fun sig =>
          mkAuthResponse (Pusher.key p ++ js ":" ++ hex_of_bytes sig)
            (JSON_stringify pd) None)
       (subtle_hmac (TextEncoder_encode (Pusher.secret p))
          (TextEncoder_encode
             (sid ++ js ":" ++ ch ++ js ":"
              ++ template_of (JSON_stringify pd)))),
     tr ++ hmac_events (TextEncoder_encode (Pusher.secret p))
             (TextEncoder_encode
                (sid ++ js ":" ++ ch ++ js ":"
                 ++ template_of (JSON_stringify pd)))).
Proof.
  intros Hs Hc Hpd Hu. unfold Pusher.authenticatePresenceChannel.
  rewrite (str_falsy_false Hs), (str_falsy_false Hc), Hpd, Hu.
  cbn [orb negb].
  unfold bind at 1. rewrite Pusher_computeHMAC_run.
  destruct (subtle_hmac _ _); reflexivity.
Qed.

Lemma PusherAuth_presence_run (a : PusherAuth.t) sid ch pd tr :
  sid <> [] -> ch <> [] -> ToBoolean pd = true ->
  ToBoolean (Get pd (js "user_id")) = true ->
  PusherAuth.authenticatePresenceChannel a sid ch pd tr
  = (completion_map
       (fun sig =>
          mkAuthResponse (PusherAuth.key a ++ js ":" ++ hex_of_bytes sig)
            (JSON_stringify pd) None)
       (subtle_hmac (TextEncoder_encode (PusherAuth.secret a))
          (TextEncoder_encode
             (sid ++ js ":" ++ ch ++ js ":"
              ++ template_of (JSON_stringify pd)))),
     tr ++ hmac_events (TextEncoder_encode (PusherAuth.secret a))
             (TextEncoder_encode
                (sid ++ js ":" ++ ch ++ js ":"
                 ++ template_of (JSON_stringify pd)))).
Proof.
  intros Hs Hc Hpd Hu. unfold PusherAuth.authenticatePresenceChannel.
  rewrite (str_falsy_false Hs), (str_falsy_false Hc), Hpd, Hu.
  cbn [orb negb].
  unfold bind at 1. rewrite PusherAuth_computeHMAC_run.
  destruct (subtle_hmac _ _); reflexivity.
Qed.

Lemma conformant_hmac secret data :
  computes_hmac_sha256 rt -> secret <> [] ->
  subtle_hmac (TextEncoder_encode secret) data
  = Normal (SHA256.hmac_sha256 (TextEncoder_encode secret) data).
Proof.
  intros Hrt Hsecret. apply Hrt. now apply TextEncoder_encode_nonempty.
Qed.
End AuthorizationRuns.

Lemma has_user_id_truthy pd :
  has_user_id pd ->
  ToBoolean pd = true /\ ToBoolean (Get pd (js "user_id")) = true
  /\ exists channelData, JSON_stringify pd = Some channelData.
Proof.
  intros (props & u & -> & Hl & Hu). repeat split.
  - unfold Get. rewrite Hl. cbn [ToBoolean]. now rewrite (str_falsy_false Hu).
  - eexists. reflexivity.
Qed.

Lemma mr_pusher_has_user_id : has_user_id mr_pusher.
Proof.
  eexists; eexists; split; [reflexivity|]. split; [reflexivity | discriminate].
Qed.

(** C5. For a non-empty socket id and channel, [authorizeChannel] of both
    classes uses the primitives for one HMAC over the UTF-8 bytes of
    [socketId + ":" + channel] under the secret and nothing else; on a
    runtime that implements HMAC-SHA256 it returns [{ auth }] with
    [auth = key + ":" + hex(HMAC-SHA256(secret, socketId:channel))] and
    without [channel_data]. *)
Theorem authorizeChannel_private_token
    (rt : Runtime) (p : Pusher.t) (a : PusherAuth.t)
    (socketId channel : jsstring) (tr : list event) :
  socketId <> [] -> channel <> [] ->
  computes_hmac_sha256 rt ->
  Pusher.secret p <> [] -> PusherAuth.secret a <> [] ->
  let signed := TextEncoder_encode (socketId ++ js ":" ++ channel) in
  Pusher.authorizeChannel p socketId channel tr
  = (Normal (private_token (Pusher.key p) (Pusher.secret p) socketId channel),
     tr ++ hmac_events (TextEncoder_encode (Pusher.secret p)) signed)
  /\ PusherAuth.authorizeChannel a socketId channel tr
     = (Normal (private_token (PusherAuth.key a) (PusherAuth.secret a)
                  socketId channel),
        tr ++ hmac_events (TextEncoder_encode (PusherAuth.secret a)) signed)
  /\ channel_data
       (private_token (Pusher.key p) (Pusher.secret p) socketId channel)
     = None.
Proof.
  intros Hs Hc Hrt Hp Ha signed. repeat split.
  - rewrite Pusher_authorizeChannel_run by assumption.
    now rewrite (conformant_hmac _ Hrt Hp).
  - rewrite PusherAuth_authorizeChannel_run by assumption.
    now rewrite (conformant_hmac _ Hrt Ha).
Qed.

Lemma authorizeChannel_private_token_witness :
  fst (Pusher.authorizeChannel (rt := workers_runtime) demo_pusher
         (js "1234.1234") (js "private-foobar") [])
  = Normal
      (mkAuthResponse
         (js "278d425bdf160c739803:58df8b0c36d6982b82c3ecf6b4662e34fe8c25bba48f5369f135bf843651c3a4")
         None None).
Proof.
  destruct (@authorizeChannel_private_token workers_runtime demo_pusher
              (PusherAuth.constructor (js "k") (js "s"))
              (js "1234.1234") (js "private-foobar") []
              ltac:(discriminate) ltac:(discriminate)
              (reference_runtime_computes_hmac _ _ _)
              ltac:(discriminate) ltac:(discriminate))
    as (H & _).
  rewrite H. vm_compute. reflexivity.
Defined.

(** C4. For a non-empty socket id and channel and member data with a
    non-empty [user_id], [authenticatePresenceChannel] of both classes
    returns [auth = key + ":" + hex(HMAC-SHA256(secret, socketId + ":" +
    channel + ":" + channelData))] together with [channelData], the
    [JSON.stringify] of the member data; for the documented key, secret,
    socket id, channel and member data the token is the fixed string
    below, the reference HMAC-SHA256 of
    ["1234.1234:presence-foobar:" + channel_data]. *)
Theorem authenticatePresenceChannel_presence_token :
  (forall (rt : Runtime) (p : Pusher.t) (a : PusherAuth.t)
          (socketId channel : jsstring) (memberData : jsvalue)
          (tr : list event),
      socketId <> [] -> channel <> [] -> has_user_id memberData ->
      computes_hmac_sha256 rt ->
      Pusher.secret p <> [] -> PusherAuth.secret a <> [] ->
      exists channelData,
        JSON_stringify memberData = Some channelData
        /\ fst (Pusher.authenticatePresenceChannel p socketId channel
                  memberData tr)
           = Normal (presence_token (Pusher.key p) (Pusher.secret p)
                       socketId channel channelData)
        /\ fst (PusherAuth.authenticatePresenceChannel a socketId channel
                  memberData tr)
           = Normal (presence_token (PusherAuth.key a) (PusherAuth.secret a)
                       socketId channel channelData))
  /\ (let channel_data :=
        jsq "{'user_id':'10','user_info':{'name':'Mr. Pusher'}}" in
      fst (Pusher.authenticatePresenceChannel (rt := workers_runtime)
             demo_pusher (js "1234.1234") (js "presence-foobar")
             mr_pusher [])
      = Normal
          (mkAuthResponse
             (js "278d425bdf160c739803:48dac51d2d7569e1e9c0f48c227d4b26f238fa68e5c0bb04222c966909c4f7c4")
             (Some channel_data) None)
      /\ js "48dac51d2d7569e1e9c0f48c227d4b26f238fa68e5c0bb04222c966909c4f7c4"
         = hex_of_bytes
             (SHA256.hmac_sha256
                (TextEncoder_encode (js "7ad3773142a6692b25b8"))
                (TextEncoder_encode
                   (js "1234.1234:presence-foobar:" ++ channel_data)))).
Proof.
  split.
  - intros rt p a sid ch md tr Hs Hc Hmd Hrt Hp Ha.
    destruct (has_user_id_truthy Hmd) as (Ht & Hu & cd & Hcd).
    exists cd. split; [assumption|].
    rewrite Pusher_presence_run, PusherAuth_presence_run by assumption.
    cbn [fst]. rewrite Hcd. cbn [template_of].
    rewrite (conformant_hmac _ Hrt Hp), (conformant_hmac _ Hrt Ha).
    split; reflexivity.
  - cbv zeta. split; vm_compute; reflexivity.
Qed.

Lemma authenticatePresenceChannel_presence_token_witness :
  exists channelData,
    JSON_stringify mr_pusher = Some channelData
    /\ fst (Pusher.authenticatePresenceChannel (rt := workers_runtime)
              demo_pusher (js "1234.1234") (js "presence-foobar")
              mr_pusher [])
       = Normal (presence_token (js "278d425bdf160c739803")
                   (js "7ad3773142a6692b25b8") (js "1234.1234")
                   (js "presence-foobar") channelData).
Proof.
  destruct (proj1 authenticatePresenceChannel_presence_token
              workers_runtime demo_pusher
              (PusherAuth.constructor (js "k") (js "s"))
              (js "1234.1234") (js "presence-foobar") mr_pusher []
              ltac:(discriminate) ltac:(discriminate)
              mr_pusher_has_user_id
              (reference_runtime_computes_hmac _ _ _)
              ltac:(discriminate) ltac:(discriminate))
    as (cd & Hcd & Hp & _).
  exists cd. split; assumption.
Defined.

(** C6. With an empty socket id or an empty channel both authorization
    methods of both classes are rejected with an [Error] before any
    primitive is used; the presence variant is rejected the same way when
    the member data is absent ([undefined] or [null]) or its [user_id] is
    missing or empty.  The log of primitive uses is unchanged: no key is
    imported and nothing is signed. *)
Theorem authorization_rejects_before_crypto
    (rt : Runtime) (p : Pusher.t) (a : PusherAuth.t)
    (socketId channel : jsstring) (memberData : jsvalue) (tr : list event) :
  (socketId = [] \/ channel = [] ->
   Pusher.authorizeChannel p socketId channel tr
   = (Throw (JsError
               (js "Socket ID and channel are required for authorization")),
      tr)
   /\ PusherAuth.authorizeChannel a socketId channel tr
      = (Throw (JsError
                  (js "Socket ID and channel are required for authorization")),
         tr)
   /\ Pusher.authenticatePresenceChannel p socketId channel memberData tr
      = (Throw (JsError
                  (js "Socket ID, channel, and presence data are required")),
         tr)
   /\ PusherAuth.authenticatePresenceChannel a socketId channel memberData tr
      = (Throw (JsError
                  (js "Socket ID, channel, and presence data are required")),
         tr))
  /\ (memberData = JUndefined \/ memberData = JNull
      \/ Get memberData (js "user_id") = JUndefined
      \/ Get memberData (js "user_id") = JStr [] ->
      rejected_untouched
        (Pusher.authenticatePresenceChannel p socketId channel memberData) tr
      /\ rejected_untouched
           (PusherAuth.authenticatePresenceChannel a socketId channel
              memberData) tr).
Proof.
  split.
  - intros Hempty.
    assert (Hor : str_falsy socketId || str_falsy channel = true).
    { destruct Hempty as [-> | ->]; [reflexivity|].
      cbn [str_falsy]. apply orb_true_r. }
    unfold Pusher.authorizeChannel, PusherAuth.authorizeChannel,
      Pusher.authenticatePresenceChannel,
      PusherAuth.authenticatePresenceChannel.
    rewrite Hor. cbn [orb]. repeat split.
  - intros Hmd.
    unfold rejected_untouched, Pusher.authenticatePresenceChannel,
      PusherAuth.authenticatePresenceChannel.
    destruct (str_falsy socketId || str_falsy channel
              || negb (ToBoolean memberData)) eqn:Hfirst.
    + split; eexists; reflexivity.
    + assert (Hu : ToBoolean (Get memberData (js "user_id")) = false).
      { destruct Hmd as [-> | [-> | [-> | ->]]];
          try reflexivity;
          rewrite orb_true_r in Hfirst; discriminate. }
      rewrite Hu. cbn [negb]. split; eexists; reflexivity.
Qed.

Lemma authorization_rejects_before_crypto_witness :
  Pusher.authorizeChannel (rt := workers_runtime) demo_pusher []
    (js "private-x") []
  = (Throw (JsError
              (js "Socket ID and channel are required for authorization")),
     [])
  /\ rejected_untouched
       (Pusher.authenticatePresenceChannel (rt := workers_runtime)
          demo_pusher (js "1234.1234") (js "presence-x") (JObj [])) [].
Proof.
  split.
  - apply (proj1 (authorization_rejects_before_crypto workers_runtime
                    demo_pusher (PusherAuth.constructor [] [])
                    [] (js "private-x") JNull [])).
    left. reflexivity.
  - apply (proj2 (authorization_rejects_before_crypto workers_runtime
                    demo_pusher (PusherAuth.constructor [] [])
                    (js "1234.1234") (js "presence-x") (JObj []) [])).
    right. right. left. reflexivity.
Defined.

(** Equal credentials give equal authorization behaviour. *)
Lemma same_credentials_same_authorization {rt : Runtime}
    (p : Pusher.t) (a : PusherAuth.t) :
  PusherAuth.key a = Pusher.key p -> PusherAuth.secret a = Pusher.secret p ->
  PusherAuth.authorizeChannel a = Pusher.authorizeChannel p
  /\ PusherAuth.authenticatePresenceChannel a
     = Pusher.authenticatePresenceChannel p.
Proof.
  intros Hk Hsec.
  unfold PusherAuth.authorizeChannel, Pusher.authorizeChannel,
    PusherAuth.authenticatePresenceChannel,
    Pusher.authenticatePresenceChannel,
    PusherAuth.computeHMAC, Pusher.computeHMAC.
  rewrite Hk, Hsec. split; reflexivity.
Qed.

Lemma constructor_fields (config : PusherConfig) (p : Pusher.t) :
  Pusher.constructor config = Normal p ->
  Pusher.appId p = cfg_appId config /\ Pusher.key p = cfg_key config
  /\ Pusher.secret p = cfg_secret config
  /\ cfg_appId config <> [] /\ cfg_key config <> []
  /\ cfg_secret config <> [].
Proof.
  unfold Pusher.constructor.
  destruct (cfg_appId config) as [|c1 s1] eqn:E1; [discriminate|].
  destruct (cfg_key config) as [|c2 s2] eqn:E2; [discriminate|].
  destruct (cfg_secret config) as [|c3 s3] eqn:E3; [discriminate|].
  cbn [str_falsy orb]. intros H. injection H as <-. cbn.
  repeat split; discriminate.
Qed.

(** C10. A [PusherAuth] built from a key and a secret and a [Pusher]
    constructed from a configuration with the same key and secret give,
    for every socket id, channel and member data and from every log, the
    same result of [authorizeChannel] and [authenticatePresenceChannel]:
    the same token, the same [channel_data], the same rejection, and the
    same primitive uses. *)
Theorem PusherAuth_agrees_with_Pusher
    (rt : Runtime) (config : PusherConfig) (p : Pusher.t)
    (socketId channel : jsstring) (memberData : jsvalue) (tr : list event) :
  Pusher.constructor config = Normal p ->
  let a := PusherAuth.constructor (cfg_key config) (cfg_secret config) in
  PusherAuth.authorizeChannel a socketId channel tr
  = Pusher.authorizeChannel p socketId channel tr
  /\ PusherAuth.authenticatePresenceChannel a socketId channel memberData tr
     = Pusher.authenticatePresenceChannel p socketId channel memberData tr.
Proof.
  intros Hp a.
  destruct (constructor_fields _ Hp) as (_ & Hk & Hsec & _).
  destruct (@same_credentials_same_authorization rt p a) as (H1 & H2);
    [now rewrite Hk | now rewrite Hsec |].
  now rewrite H1, H2.
Qed.

Lemma PusherAuth_agrees_with_Pusher_witness :
  PusherAuth.authorizeChannel (rt := workers_runtime)
    (PusherAuth.constructor (js "278d425bdf160c739803")
       (js "7ad3773142a6692b25b8"))
    (js "1234.1234") (js "private-foobar") []
  = Pusher.authorizeChannel (rt := workers_runtime) demo_pusher
      (js "1234.1234") (js "private-foobar") [].
Proof.
  exact (proj1 (@PusherAuth_agrees_with_Pusher workers_runtime demo_config
                  demo_pusher (js "1234.1234") (js "private-foobar")
                  mr_pusher [] demo_pusher_constructed)).
Defined.

(** ** How the REST calls run *)

Section RestRuns.
Context {rt : Runtime}.
Variable this : Pusher.t.

Lemma computeMD5_run body tr :
  Pusher.computeMD5 body tr
  = (Normal (computed_md5 body), tr ++ md5_events body).
Proof.
  unfold Pusher.computeMD5, try_catch, bind, digest, console_warn, prim,
    ret, computed_md5, md5_events.
  destruct (subtle_digest _ _); cbn [fst snd];
    rewrite <- ?app_assoc; reflexivity.
Qed.

Ltac run_write :=
  unfold try_catch, write_run, write_signed, write_url, write_outcome;
  unfold bind at 1; rewrite computeMD5_run;
  unfold bind at 1; rewrite createSignature_run; cbn [fst snd];
  destruct (subtle_hmac _ _); cbn [completion_map];
    [|rewrite <- !app_assoc; reflexivity];
  unfold bind at 1, fetch, prim;
  rewrite <- !app_assoc;
  match goal with
  | |- context [global_fetch ?u ?i] => destruct (global_fetch u i)
  end; [|reflexivity];
  unfold bind, response_text, ret;
  match goal with
  | |- context [resp_ok ?r] =>
      destruct (resp_ok r); cbn [negb]; destruct (resp_text r); reflexivity
  end.

Lemma trigger_run call tr :
  Pusher.trigger this call tr
  = write_run this (js "/events")
      (stringify_object (Pusher.trigger_payload call)) tr.
Proof.
  unfold Pusher.trigger.
  change (js "/events?") with (js "/events" ++ js "?"). run_write.
Qed.

Lemma triggerBatch_run events tr :
  Pusher.triggerBatch this events tr
  = write_run this (js "/batch_events")
      (stringify_object
         [(js "batch", JArr (map Pusher.batch_entry events))]) tr.
Proof.
  unfold Pusher.triggerBatch.
  change (js "/batch_events?") with (js "/batch_events" ++ js "?").
  run_write.
Qed.

Ltac run_read :=
  unfold read_run, read_outcome;
  unfold bind at 1; rewrite createSignature_run; cbn [fst snd];
  destruct (subtle_hmac _ _); cbn [completion_map];
    [|reflexivity];
  unfold bind at 1, fetch, prim;
  rewrite <- !app_assoc;
  match goal with
  | |- context [global_fetch ?u ?i] => destruct (global_fetch u i)
  end; [|reflexivity];
  unfold bind, response_text, response_json, throw;
  match goal with
  | |- context [resp_ok ?r] =>
      destruct (resp_ok r); cbn [negb]; [reflexivity|];
      destruct (resp_text r); reflexivity
  end.

Lemma getChannel_run channel options tr :
  Pusher.getChannel this channel options tr
  = read_run this (js "Failed to get channel info: ")
      (js "/apps/" ++ Pusher.appId this ++ js "/channels/" ++ channel)
      (Pusher.getChannel_query this unix_seconds options) tr.
Proof. unfold Pusher.getChannel. run_read. Qed.

Lemma getChannels_run prefix options tr :
  Pusher.getChannels this prefix options tr
  = read_run this (js "Failed to get channels: ")
      (js "/apps/" ++ Pusher.appId this ++ js "/channels")
      (Pusher.getChannels_query this unix_seconds prefix options) tr.
Proof. unfold Pusher.getChannels. run_read. Qed.
End RestRuns.

(** ** Purity of the request signer *)

(** C9. [createSignature] is a function of the method, path, timestamp
    and digest and of the key and the secret alone: instances that agree
    on key and secret return the same value whatever their other fields,
    the unused [body] argument and the log of earlier primitive uses, so a
    second invocation returns what the first did; on a runtime that
    implements HMAC-SHA256 the value is a string of 64 lowercase
    hexadecimal digits. *)
Theorem createSignature_pure_hex64
    (rt : Runtime) (this other : Pusher.t) (method path : jsstring)
    (timestamp : Z) (body body' md5 : option jsstring)
    (tr tr' : list event) :
  Pusher.key other = Pusher.key this ->
  Pusher.secret other = Pusher.secret this ->
  fst (Pusher.createSignature other method path timestamp body' md5 tr')
  = fst (Pusher.createSignature this method path timestamp body md5 tr)
  /\ fst (Pusher.createSignature this method path timestamp body md5
            (snd (Pusher.createSignature this method path timestamp body md5
                    tr)))
     = fst (Pusher.createSignature this method path timestamp body md5 tr)
  /\ (computes_hmac_sha256 rt -> Pusher.secret this <> [] ->
      exists signature,
        fst (Pusher.createSignature this method path timestamp body md5 tr)
        = Normal signature
        /\ length signature = 64
        /\ forallb is_lower_hex signature = true).
Proof.
  intros Hk Hsec. rewrite !createSignature_run. cbn [fst].
  repeat split.
  - unfold Pusher.stringToSign, Pusher.signed_pairs. now rewrite Hk, Hsec.
  - intros Hrt Hne. rewrite (conformant_hmac _ Hrt Hne). cbn [completion_map].
    eexists. split; [reflexivity|]. split.
    + rewrite hex_of_bytes_length, hmac_sha256_length. reflexivity.
    + apply hex_of_bytes_lower.
Qed.

Lemma createSignature_pure_hex64_witness :
  fst (Pusher.createSignature (rt := workers_runtime) demo_pusher_eu
         (js "GET") (js "/apps/123456/channels") 1700000000
         (Some (js "ignored")) None [EvWarn (js "earlier")])
  = fst (Pusher.createSignature (rt := workers_runtime) demo_pusher
           (js "GET") (js "/apps/123456/channels") 1700000000 None None [])
  /\ exists signature,
       fst (Pusher.createSignature (rt := workers_runtime) demo_pusher
              (js "GET") (js "/apps/123456/channels") 1700000000 None None [])
       = Normal signature
       /\ length signature = 64
       /\ forallb is_lower_hex signature = true.
Proof.
  destruct (@createSignature_pure_hex64 workers_runtime demo_pusher
              demo_pusher_eu (js "GET") (js "/apps/123456/channels")
              1700000000 None (Some (js "ignored")) None []
              [EvWarn (js "earlier")] eq_refl eq_refl)
    as (H1 & _ & H3).
  split; [exact H1|].
  apply H3; [apply reference_runtime_computes_hmac | discriminate].
Defined.

(** ** Failure of the signing primitive *)

Section Counting.
Context {rt : Runtime}.

Lemma count_imports_app a b :
  count_imports (a ++ b) = count_imports a + count_imports b.
Proof. unfold count_imports. now rewrite filter_app, length_app. Qed.

Lemma count_signs_app a b :
  count_signs (a ++ b) = count_signs a + count_signs b.
Proof. unfold count_signs. now rewrite filter_app, length_app. Qed.

Lemma hmac_events_counts raw data :
  count_imports (hmac_events raw data) = 1
  /\ count_signs (hmac_events raw data) <= 1.
Proof.
  unfold hmac_events.
  destruct (subtle_importKey raw); cbn; split; lia.
Qed.

Lemma md5_events_counts body :
  count_imports (md5_events body) = 0 /\ count_signs (md5_events body) = 0.
Proof.
  unfold md5_events.
  destruct (subtle_digest _ _); cbn; split; reflexivity.
Qed.

Lemma one_attempt_hmac tr raw data :
  one_hmac_attempt tr (tr ++ hmac_events raw data).
Proof.
  destruct (hmac_events_counts raw data) as (Hi & Hs).
  unfold one_hmac_attempt.
  rewrite count_imports_app, count_signs_app. lia.
Qed.

Lemma one_attempt_write tr body raw data :
  one_hmac_attempt tr (tr ++ md5_events body ++ hmac_events raw data).
Proof.
  destruct (hmac_events_counts raw data) as (Hi & Hs).
  destruct (md5_events_counts body) as (Mi & Ms).
  unfold one_hmac_attempt.
  rewrite !count_imports_app, !count_signs_app. lia.
Qed.
End Counting.

(** C7, as stated, fails for [trigger]: with a key import that throws, the
    call does not throw but returns [{ success: false, error }]. *)
Lemma trigger_masks_crypto_failure :
  fst (Pusher.trigger (rt := broken_runtime) demo_pusher hello_call [])
  = Normal (mkTriggerResponse false (Some (js "key import failed")) None)
  /\ ~ surfaces_crypto_failure broken_runtime (Pusher.secret demo_pusher)
         (Pusher.trigger (rt := broken_runtime) demo_pusher hello_call).
Proof.
  assert (E : fst (Pusher.trigger (rt := broken_runtime) demo_pusher
                     hello_call [])
              = Normal (mkTriggerResponse false
                          (Some (js "key import failed")) None)).
  { rewrite trigger_run. reflexivity. }
  split; [exact E|].
  intros H.
  specialize (H (JsError (js "key import failed")) (fun _ => eq_refl) []).
  rewrite E in H. discriminate.
Qed.

(** C7, amended. When the runtime's HMAC under the secret fails with [e]:
    [createSignature], [computeHMAC], the two authorization methods (on
    arguments they accept), [getChannel] and [getChannels] end by throwing
    [e]; [trigger] and [triggerBatch] catch it and return
    [{ success: false, error: message }] without a status.  Every one of
    them imports the key once and signs at most once: nothing is
    retried. *)
Theorem crypto_failure_thrown_or_reported
    (rt : Runtime) (this : Pusher.t) (e : thrown) (tr : list event) :
  (forall data,
      subtle_hmac (TextEncoder_encode (Pusher.secret this)) data = Throw e) ->
  (forall method path timestamp body md5,
      throws_once (Pusher.createSignature this method path timestamp body md5)
        tr e)
  /\ (forall data, throws_once (Pusher.computeHMAC this data) tr e)
  /\ (forall socketId channel,
         socketId <> [] -> channel <> [] ->
         throws_once (Pusher.authorizeChannel this socketId channel) tr e)
  /\ (forall socketId channel memberData,
         socketId <> [] -> channel <> [] -> has_user_id memberData ->
         throws_once
           (Pusher.authenticatePresenceChannel this socketId channel
              memberData) tr e)
  /\ (forall channel options,
         throws_once (Pusher.getChannel this channel options) tr e)
  /\ (forall prefix options,
         throws_once (Pusher.getChannels this prefix options) tr e)
  /\ (forall call, reports_once (Pusher.trigger this call) tr e)
  /\ (forall events, reports_once (Pusher.triggerBatch this events) tr e).
Proof.
  intros Hfail. unfold throws_once, reports_once. repeat split.
  - rewrite createSignature_run, Hfail. reflexivity.
  - rewrite createSignature_run; cbn [snd]. apply one_attempt_hmac.
  - rewrite createSignature_run; cbn [snd]. apply one_attempt_hmac.
  - rewrite Pusher_computeHMAC_run, Hfail. reflexivity.
  - rewrite Pusher_computeHMAC_run; cbn [snd]. apply one_attempt_hmac.
  - rewrite Pusher_computeHMAC_run; cbn [snd]. apply one_attempt_hmac.
  - rewrite Pusher_authorizeChannel_run, Hfail by assumption. reflexivity.
  - rewrite Pusher_authorizeChannel_run by assumption; cbn [snd].
    apply one_attempt_hmac.
  - rewrite Pusher_authorizeChannel_run by assumption; cbn [snd].
    apply one_attempt_hmac.
  - destruct (has_user_id_truthy H1) as (Ht & Hu & _).
    rewrite Pusher_presence_run, Hfail by assumption. reflexivity.
  - destruct (has_user_id_truthy H1) as (Ht & Hu & _).
    rewrite Pusher_presence_run by assumption; cbn [snd].
    apply one_attempt_hmac.
  - destruct (has_user_id_truthy H1) as (Ht & Hu & _).
    rewrite Pusher_presence_run by assumption; cbn [snd].
    apply one_attempt_hmac.
  - rewrite getChannel_run. unfold read_run. rewrite Hfail. reflexivity.
  - rewrite getChannel_run. unfold read_run. rewrite Hfail. cbn [snd].
    apply one_attempt_hmac.
  - rewrite getChannel_run. unfold read_run. rewrite Hfail. cbn [snd].
    apply one_attempt_hmac.
  - rewrite getChannels_run. unfold read_run. rewrite Hfail. reflexivity.
  - rewrite getChannels_run. unfold read_run. rewrite Hfail. cbn [snd].
    apply one_attempt_hmac.
  - rewrite getChannels_run. unfold read_run. rewrite Hfail. cbn [snd].
    apply one_attempt_hmac.
  - rewrite trigger_run. unfold write_run. rewrite Hfail. reflexivity.
  - rewrite trigger_run. unfold write_run. rewrite Hfail. cbn [snd].
    apply one_attempt_write.
  - rewrite trigger_run. unfold write_run. rewrite Hfail. cbn [snd].
    apply one_attempt_write.
  - rewrite triggerBatch_run. unfold write_run. rewrite Hfail. reflexivity.
  - rewrite triggerBatch_run. unfold write_run. rewrite Hfail. cbn [snd].
    apply one_attempt_write.
  - rewrite triggerBatch_run. unfold write_run. rewrite Hfail. cbn [snd].
    apply one_attempt_write.
Qed.

Lemma crypto_failure_thrown_or_reported_witness :
  throws_once
    (Pusher.getChannel (rt := broken_runtime) demo_pusher
       (js "presence-foobar") None) [] (JsError (js "key import failed"))
  /\ reports_once
       (Pusher.trigger (rt := broken_runtime) demo_pusher hello_call) []
       (JsError (js "key import failed")).
Proof.
  destruct (@crypto_failure_thrown_or_reported broken_runtime demo_pusher
              (JsError (js "key import failed")) [] (fun _ => eq_refl))
    as (_ & _ & _ & _ & Hget & _ & Htrigger & _).
  split; [apply Hget | apply Htrigger].
Defined.

(** ** What the REST calls sign and what they send *)


Section SignedData.
Context {rt : Runtime}.




End SignedData.





(** ** The write calls without MD5 *)

(** C2, the defect. On a runtime whose [digest] rejects MD5,
    [trigger('my-channel', 'my-event', { message: 'Hello World!' })]
    warns, signs the canonical request without [body_md5], and fetches a
    URL whose query still carries the key [body_md5], with an empty
    value, between [auth_version] and [auth_signature]. *)
Theorem trigger_without_md5_sends_empty_body_md5 :
  let body :=
    jsq "{'name':'my-event','data':'{\'message\':\'Hello World!\'}','channels':['my-channel']}" in
  Pusher.trigger (rt := workers_runtime) demo_pusher hello_call []
  = (Normal (mkTriggerResponse true None None),
     [EvDigest (js "MD5") (TextEncoder_encode body);
      EvWarn (js "MD5 not available, using empty hash");
      EvImportKey (TextEncoder_encode (js "7ad3773142a6692b25b8"));
      EvSign
        (HmacSha256Key (TextEncoder_encode (js "7ad3773142a6692b25b8")))
        (TextEncoder_encode
           (js "POST" ++ nl ++ js "/apps/123456/events" ++ nl
            ++ js "auth_key=278d425bdf160c739803&auth_timestamp=1700000000&auth_version=1.0"));
      EvFetch
        (js "https://api-mt1.pusher.com/apps/123456/events?auth_key=278d425bdf160c739803&auth_timestamp=1700000000&auth_version=1.0&body_md5=&auth_signature=9e372bf0e525e0125e368666b357b1c9ba232644534be231a93fd96b68db466a")
        (mkRequestInit (js "POST") json_headers (Some body))]).
Proof. vm_compute. reflexivity. Qed.

(** On every runtime that rejects MD5 the digest handed on is empty: the
    signed request has no [body_md5], the query of the request has one. *)
Lemma write_calls_without_md5 {rt : Runtime} (this : Pusher.t)
    (endpoint body signature : jsstring) (e : thrown) :
  subtle_digest (js "MD5") (TextEncoder_encode body) = Throw e ->
  computed_md5 body = []
  /\ write_signed this endpoint body
     = TextEncoder_encode
         (canonical_request (js "POST")
            (js "/apps/" ++ Pusher.appId this ++ endpoint) (Pusher.key this)
            unix_seconds None)
  /\ In (js "body_md5", [])
       (Pusher.write_query this unix_seconds (computed_md5 body) signature).
Proof.
  intros Hd. assert (Hm : computed_md5 body = []).
  { unfold computed_md5. now rewrite Hd. }
  unfold write_signed. rewrite Hm, stringToSign_canonical.
  repeat split. cbn. tauto.
Qed.

(** ** [JSON.parse] after [JSON.stringify] *)

Lemma hex_value_hex_digit x :
  (x < 16)%N -> hex_value (hex_digit x) = Some x.
Proof.
  intros Hx. unfold hex_digit, hex_value.
  destruct (N.ltb_spec x 10).
  - replace ((48 <=? 48 + x) && (48 + x <=? 57))%N with true.
    + f_equal. lia.
    + symmetry. apply andb_true_iff. split; apply N.leb_le; lia.
  - replace ((48 <=? 87 + x) && (87 + x <=? 57))%N with false.
    + replace ((97 <=? 87 + x) && (87 + x <=? 102))%N with true.
      * f_equal. lia.
      * symmetry. apply andb_true_iff. split; apply N.leb_le; lia.
    + symmetry. apply andb_false_iff. right. apply N.leb_gt. lia.
Qed.

Lemma parse_plain_unit c x :
  c <> 34%N -> c <> 92%N -> (32 <= c)%N ->
  parse_string_body (c :: x) = prepend c (parse_string_body x).
Proof.
  intros H34 H92 H32. cbn [parse_string_body].
  destruct (N.eqb_spec c 34); [contradiction|].
  destruct (N.eqb_spec c 92); [contradiction|].
  destruct (N.ltb_spec c 32); [lia | reflexivity].
Qed.

Lemma parse_letter_escape e u x :
  e <> 117%N -> unescape e = Some u ->
  parse_string_body (92%N :: e :: x) = prepend u (parse_string_body x).
Proof.
  intros He Hu. cbn [parse_string_body].
  change (92 =? 34)%N with false. change (92 =? 92)%N with true.
  cbn match.
  destruct (N.eqb_spec e 117); [contradiction|]. now rewrite Hu.
Qed.

Lemma hex4_value c :
  (c < 65536)%N ->
  ((c / 4096) mod 16 * 4096 + (c / 256) mod 16 * 256
   + (c / 16) mod 16 * 16 + c mod 16 = c)%N.
Proof.
  intros Hc.
  pose proof (N.div_mod c 16 ltac:(lia)) as H1.
  pose proof (N.div_mod (c / 16) 16 ltac:(lia)) as H2.
  pose proof (N.div_mod (c / 256) 16 ltac:(lia)) as H3.
  pose proof (N.mod_small (c / 4096) 16) as H4.
  replace (c / 256)%N with (c / 16 / 16)%N in *
    by (rewrite N.Div0.div_div; reflexivity).
  replace (c / 4096)%N with (c / 16 / 16 / 16)%N in *
    by (rewrite !N.Div0.div_div; reflexivity).
  assert (c / 16 / 16 / 16 < 16)%N.
  { apply N.Div0.div_lt_upper_bound. apply N.Div0.div_lt_upper_bound.
    apply N.Div0.div_lt_upper_bound. lia. }
  rewrite H4 by assumption. lia.
Qed.

Lemma parse_unicode_escape c x :
  (c < 65536)%N ->
  parse_string_body (UnicodeEscape c ++ x) = prepend c (parse_string_body x).
Proof.
  intros Hc. unfold UnicodeEscape, hex4.
  cbn [app parse_string_body].
  change (92 =? 34)%N with false. change (92 =? 92)%N with true.
  change (117 =? 117)%N with true. cbn match.
  rewrite !hex_value_hex_digit by (apply N.mod_lt; lia).
  now rewrite hex4_value.
Qed.

Lemma parse_quote_unit c x :
  parse_string_body (quote_unit c ++ x) = prepend c (parse_string_body x).
Proof.
  unfold quote_unit.
  destruct (N.eqb_spec c 8) as [->|];
    [apply (@parse_letter_escape 98 8); [discriminate | reflexivity]|].
  destruct (N.eqb_spec c 9) as [->|];
    [apply (@parse_letter_escape 116 9); [discriminate | reflexivity]|].
  destruct (N.eqb_spec c 10) as [->|];
    [apply (@parse_letter_escape 110 10); [discriminate | reflexivity]|].
  destruct (N.eqb_spec c 12) as [->|];
    [apply (@parse_letter_escape 102 12); [discriminate | reflexivity]|].
  destruct (N.eqb_spec c 13) as [->|];
    [apply (@parse_letter_escape 114 13); [discriminate | reflexivity]|].
  destruct (N.eqb_spec c 34) as [->|];
    [apply (@parse_letter_escape 34 34); [discriminate | reflexivity]|].
  destruct (N.eqb_spec c 92) as [->|];
    [apply (@parse_letter_escape 92 92); [discriminate | reflexivity]|].
  destruct (N.ltb_spec c 32).
  - apply parse_unicode_escape. lia.
  - apply parse_plain_unit; assumption.
Qed.

Lemma surrogate_bounds c :
  is_lead_surrogate c = true \/ is_trail_surrogate c = true ->
  c <> 34%N /\ c <> 92%N /\ (32 <= c)%N /\ (c < 65536)%N.
Proof.
  unfold is_lead_surrogate, is_trail_surrogate.
  intros [H | H]; apply andb_true_iff in H; destruct H as (H1 & H2);
    apply N.leb_le in H1, H2; lia.
Qed.

Lemma parse_quoted_units_bounded n :
  forall s rest,
    length s <= n ->
    parse_string_body (quote_units s ++ 34%N :: rest) = Some (s, rest).
Proof.
  induction n as [|n IH]; intros s rest Hlen.
  - destruct s; [reflexivity | cbn in Hlen; lia].
  - destruct s as [|c t]; [reflexivity|].
    cbn [length] in Hlen. cbn [quote_units].
    destruct (is_lead_surrogate c) eqn:Hlead.
    + destruct (surrogate_bounds c (or_introl Hlead)) as (A & B & C & D).
      destruct t as [|d t'].
      * rewrite parse_unicode_escape by assumption. reflexivity.
      * destruct (is_trail_surrogate d) eqn:Htrail.
        -- destruct (surrogate_bounds d (or_intror Htrail))
             as (A' & B' & C' & D').
           cbn [app]. rewrite !parse_plain_unit by assumption.
           rewrite IH by (cbn [length] in Hlen; lia). reflexivity.
        -- rewrite <- app_assoc, parse_unicode_escape by assumption.
           rewrite IH by lia. reflexivity.
    + destruct (is_trail_surrogate c) eqn:Htrail.
      * destruct (surrogate_bounds c (or_intror Htrail)) as (A & B & C & D).
        rewrite <- app_assoc, parse_unicode_escape by assumption.
        rewrite IH by lia. reflexivity.
      * rewrite <- app_assoc, parse_quote_unit, IH by lia. reflexivity.
Qed.

Lemma parse_quoted_units s rest :
  parse_string_body (quote_units s ++ 34%N :: rest) = Some (s, rest).
Proof. apply (@parse_quoted_units_bounded (length s)). lia. Qed.

Lemma delimited_not_digit rest :
  delimited rest ->
  match rest with c :: _ => is_digit c = false | [] => True end
  /\ continues_number rest = false.
Proof.
  destruct rest as [|c t]; [now split|].
  intros [-> | [-> | ->]]; split; reflexivity.
Qed.

Lemma parse_digits_units u rest :
  match rest with c :: _ => is_digit c = false | [] => True end ->
  parse_digits (uint_units u ++ rest) = (u, rest).
Proof.
  intros Hrest.
  induction u; cbn [uint_units app parse_digits];
    try (match goal with
         | |- context [is_digit (digit_unit ?k)] =>
             change (is_digit (digit_unit k)) with true
         end; cbn match; rewrite IHu; reflexivity).
  destruct rest as [|c t]; [reflexivity|].
  cbn [parse_digits]. now rewrite Hrest.
Qed.

Lemma to_uint_leading_digit p :
  match Pos.to_uint p with
  | Decimal.Nil | Decimal.D0 _ => False
  | _ => True
  end.
Proof.
  pose proof (DecimalPos.Unsigned.to_of (Pos.to_uint p)) as Hnorm.
  rewrite DecimalPos.Unsigned.of_to in Hnorm. cbn [N.to_uint] in Hnorm.
  pose proof (DecimalPos.Unsigned.to_uint_nonnil p) as Hnil.
  pose proof (DecimalPos.Unsigned.to_uint_nonzero p) as Hzero.
  destruct (Pos.to_uint p) as [|r|r|r|r|r|r|r|r|r|r]; try exact I;
    [congruence|].
  rewrite DecimalFacts.unorm_D0 in Hnorm.
  destruct r as [|r|r|r|r|r|r|r|r|r|r];
    [exact (Hzero eq_refl) | ..];
    match type of Hnorm with
    | _ = Decimal.unorm ?d =>
        pose proof (@DecimalFacts.nb_digits_unorm d ltac:(discriminate)) as Hn
    end;
    rewrite <- Hnorm in Hn; cbn [Decimal.nb_digits] in Hn; lia.
Qed.

Lemma units_head_digit u :
  u <> Decimal.Nil ->
  exists c t, uint_units u = c :: t /\ is_digit c = true /\ c <> 45%N.
Proof.
  destruct u; [congruence|..]; intros _; cbn [uint_units];
    eexists; eexists; (split; [reflexivity|]);
    (split; [reflexivity | discriminate]).
Qed.

Lemma parse_number_positive u rest negative :
  match u with Decimal.Nil | Decimal.D0 _ => False | _ => True end ->
  delimited rest ->
  (let (u', rest') := parse_digits (uint_units u ++ rest) in
   match u' with
   | Decimal.Nil => None
   | Decimal.D0 Decimal.Nil =>
       if negative || continues_number rest' then None
       else Some (JNum (NInt 0), rest')
   | Decimal.D0 _ => None
   | _ =>
       if continues_number rest' then None
       else Some (JNum (NInt (Z.of_int (if negative then Decimal.Neg u'
                                        else Decimal.Pos u'))), rest')
   end)
  = Some (JNum (NInt (Z.of_int (if negative then Decimal.Neg u
                                else Decimal.Pos u))), rest).
Proof.
  intros Hu Hrest.
  destruct (delimited_not_digit rest Hrest) as (Hd & Hc).
  rewrite parse_digits_units by assumption.
  destruct u; try contradiction; now rewrite Hc.
Qed.

Lemma parse_number_toString z rest :
  delimited rest ->
  parse_number (Number_toString z ++ rest) = Some (JNum (NInt z), rest).
Proof.
  intros Hrest. unfold Number_toString, parse_number.
  destruct z as [|p|p]; cbn [Z.to_int].
  - destruct (delimited_not_digit rest Hrest) as (Hd & Hc).
    change (uint_units Decimal.zero) with [48%N]. cbn [app].
    change (48 =? 45)%N with false. cbn match.
    change (48%N :: rest) with (uint_units Decimal.zero ++ rest).
    rewrite parse_digits_units by assumption.
    now rewrite Hc.
  - pose proof (to_uint_leading_digit p) as Hlead.
    destruct (@units_head_digit (Pos.to_uint p)) as (c & t & E & Hc & H45).
    { apply DecimalPos.Unsigned.to_uint_nonnil. }
    rewrite E. cbn [app].
    destruct (N.eqb_spec c 45); [contradiction|].
    change (c :: t ++ rest) with ((c :: t) ++ rest). rewrite <- E.
    rewrite (@parse_number_positive _ _ false Hlead Hrest).
    cbn match. do 4 f_equal.
    exact (DecimalZ.of_to (Z.pos p)).
  - pose proof (to_uint_leading_digit p) as Hlead.
    cbn [app]. change (45 =? 45)%N with true. cbn match.
    rewrite (@parse_number_positive _ _ true Hlead Hrest).
    cbn match. do 4 f_equal.
    exact (DecimalZ.of_to (Z.neg p)).
Qed.

Lemma str_eqb_sym s t : str_eqb s t = str_eqb t s.
Proof.
  revert t. induction s as [|c s IH]; intros [|d t]; try reflexivity.
  cbn [str_eqb]. now rewrite IH, N.eqb_sym.
Qed.

Lemma has_key_app k a b : has_key k (a ++ b) = has_key k a || has_key k b.
Proof.
  induction a as [|[k' v'] a IH]; [reflexivity|].
  cbn [app has_key]. now rewrite IH, orb_assoc.
Qed.

Lemma define_prop_fresh props k v :
  has_key k props = false -> define_prop props k v = props ++ [(k, v)].
Proof.
  induction props as [|[k' v'] props IH]; [reflexivity|].
  cbn [has_key define_prop app]. intros H.
  apply orb_false_iff in H. destruct H as (H1 & H2).
  now rewrite H1, IH.
Qed.

Lemma define_all_fresh members :
  forall props,
    distinct_keys members = true ->
    (forall kv, In kv members -> has_key (fst kv) props = false) ->
    fold_left (fun acc kv => define_prop acc (fst kv) (snd kv)) members props
    = props ++ members.
Proof.
  induction members as [|[k v] members IH]; intros props Hd Hfresh.
  - cbn. now rewrite app_nil_r.
  - cbn [fold_left fst snd].
    cbn [distinct_keys] in Hd. apply andb_true_iff in Hd.
    destruct Hd as (Hk & Hd). apply negb_true_iff in Hk.
    rewrite define_prop_fresh by (apply (Hfresh (k, v)); now left).
    rewrite IH; [now rewrite <- app_assoc | assumption |].
    intros [k' v'] Hin. cbn [fst].
    pose proof (Hfresh (k', v') (or_intror Hin)) as Hf. cbn [fst] in Hf.
    rewrite has_key_app, Hf.
    cbn [has_key orb]. rewrite orb_false_r, str_eqb_sym.
    clear - Hk Hin. induction members as [|[k2 v2] members IH];
      [contradiction|].
    cbn [has_key] in Hk. apply orb_false_iff in Hk. destruct Hk as (H1 & H2).
    destruct Hin as [E | Hin]; [now injection E as <- <- | now apply IH].
Qed.

Lemma build_object_distinct members :
  distinct_keys members = true -> build_object members = members.
Proof.
  intros Hd. unfold build_object.
  now rewrite define_all_fresh by (assumption || reflexivity).
Qed.

(** One computation step of each of the three parsers. *)
Lemma parse_value_S f s :
  parse_value (S f) s
  = match skip_ws s with
    | [] => None
    | c :: t =>
        if (c =? 34)%N then
          match parse_string_body t with
          | Some (str, rest) => Some (JStr str, rest)
          | None => None
          end
        else if (c =? 91)%N then
          match skip_ws t with
          | [] => None
          | d :: t' =>
              if (d =? 93)%N then Some (JArr [], t')
              else
                match parse_elements f t with
                | Some (elems, rest) => Some (JArr elems, rest)
                | None => None
                end
          end
        else if (c =? 123)%N then
          match skip_ws t with
          | [] => None
          | d :: t' =>
              if (d =? 125)%N then Some (JObj [], t')
              else
                match parse_members f t with
                | Some (members, rest) =>
                    Some (JObj (build_object members), rest)
                | None => None
                end
          end
        else if (c =? 110)%N then
          match strip_prefix (js "ull") t with
          | Some rest => Some (JNull, rest)
          | None => None
          end
        else if (c =? 116)%N then
          match strip_prefix (js "rue") t with
          | Some rest => Some (JBool true, rest)
          | None => None
          end
        else if (c =? 102)%N then
          match strip_prefix (js "alse") t with
          | Some rest => Some (JBool false, rest)
          | None => None
          end
        else parse_number (c :: t)
    end.
Proof. reflexivity. Qed.

Lemma parse_elements_S f s :
  parse_elements (S f) s
  = match parse_value f s with
    | None => None
    | Some (v, rest) =>
        match skip_ws rest with
        | [] => None
        | c :: rest' =>
            if (c =? 93)%N then Some ([v], rest')
            else if (c =? 44)%N then
              match parse_elements f rest' with
              | Some (elems, rest'') => Some (v :: elems, rest'')
              | None => None
              end
            else None
        end
    end.
Proof. reflexivity. Qed.

Lemma parse_members_S f s :
  parse_members (S f) s
  = match skip_ws s with
    | [] => None
    | q :: t =>
        if (q =? 34)%N then
          match parse_string_body t with
          | None => None
          | Some (k, rest) =>
              match skip_ws rest with
              | [] => None
              | colon :: rest' =>
                  if (colon =? 58)%N then
                    match parse_value f rest' with
                    | None => None
                    | Some (v, rest'') =>
                        match skip_ws rest'' with
                        | [] => None
                        | c :: rest3 =>
                            if (c =? 125)%N then Some ([(k, v)], rest3)
                            else if (c =? 44)%N then
                              match parse_members f rest3 with
                              | Some (members, rest4) =>
                                  Some ((k, v) :: members, rest4)
                              | None => None
                              end
                            else None
                        end
                    end
                  else None
              end
          end
        else None
    end.
Proof. reflexivity. Qed.

Lemma serialize_array elems :
  SerializeJSONProperty (JArr elems)
  = Some (91%N :: join [44%N] (map render_element elems) ++ [93%N]).
Proof. reflexivity. Qed.

Lemma serialize_object props :
  SerializeJSONProperty (JObj props)
  = Some (123%N :: join [44%N] (flat_map render_member props) ++ [125%N]).
Proof. reflexivity. Qed.

Lemma skip_ws_head c t : is_ws c = false -> skip_ws (c :: t) = c :: t.
Proof. intros H. cbn [skip_ws]. now rewrite H. Qed.

Lemma value_head_app s x : value_head s -> value_head (s ++ x).
Proof.
  intros (c & t & -> & H1 & H2). exists c, (t ++ x). now repeat split.
Qed.

Lemma reads_back_string s : reads_back (JStr s) (QuoteJSONString s).
Proof.
  split.
  - exists 34%N, (quote_units s ++ [34%N]). repeat split. discriminate.
  - intros [|f] rest Hf _; [cbn in Hf; lia|].
    unfold QuoteJSONString. cbn [app]. rewrite <- app_assoc. cbn [app].
    rewrite parse_value_S, skip_ws_head by reflexivity.
    change (34 =? 34)%N with true. cbn match.
    now rewrite parse_quoted_units.
Qed.

Lemma number_head_tests c :
  is_digit c = true \/ c = 45%N ->
  is_ws c = false /\ c <> 93%N
  /\ (c =? 34)%N = false /\ (c =? 91)%N = false /\ (c =? 123)%N = false
  /\ (c =? 110)%N = false /\ (c =? 116)%N = false /\ (c =? 102)%N = false.
Proof.
  intros [H | ->]; [|repeat split; discriminate].
  unfold is_digit in H. apply andb_true_iff in H. destruct H as (H1 & H2).
  apply N.leb_le in H1, H2. unfold is_ws.
  repeat split;
    repeat match goal with
      | |- context [(c =? ?k)%N] => destruct (N.eqb_spec c k); try lia
      end; try reflexivity; lia.
Qed.

Lemma Number_toString_head z :
  exists c t,
    Number_toString z = c :: t /\ (is_digit c = true \/ c = 45%N).
Proof.
  unfold Number_toString.
  destruct z as [|p|p]; cbn [Z.to_int].
  - exists 48%N, []. split; [reflexivity | now left].
  - destruct (@units_head_digit (Pos.to_uint p)) as (c & t & E & Hc & _).
    { apply DecimalPos.Unsigned.to_uint_nonnil. }
    exists c, t. split; [assumption | now left].
  - eexists; eexists; split; [reflexivity | now right].
Qed.

Lemma reads_back_number z : reads_back (JNum (NInt z)) (Number_toString z).
Proof.
  destruct (Number_toString_head z) as (c & t & E & Hc).
  destruct (number_head_tests Hc)
    as (Hws & H93 & T1 & T2 & T3 & T4 & T5 & T6).
  split.
  - exists c, t. now repeat split.
  - intros [|f] rest Hf Hrest; [lia|].
    rewrite parse_value_S, E. cbn [app].
    rewrite skip_ws_head, T1, T2, T3, T4, T5, T6 by assumption.
    change (c :: t ++ rest) with ((c :: t) ++ rest). rewrite <- E.
    now apply parse_number_toString.
Qed.

Lemma join_cons_cons sep (p q : jsstring) rest :
  join sep (p :: q :: rest) = p ++ sep ++ join sep (q :: rest).
Proof. reflexivity. Qed.

Lemma elements_read_back elems :
  Forall (fun e => exists s,
              SerializeJSONProperty e = Some s /\ reads_back e s) elems ->
  elems <> [] ->
  value_head (join [44%N] (map render_element elems))
  /\ forall fuel rest,
       S (length (join [44%N] (map render_element elems))) < fuel ->
       parse_elements fuel
         (join [44%N] (map render_element elems) ++ 93%N :: rest)
       = Some (elems, rest).
Proof.
  induction 1 as [|e l (s & Hs & Hhead & Hparse) Hl IH]; [congruence|].
  intros _.
  assert (Hre : render_element e = s)
    by (unfold render_element; now rewrite Hs).
  destruct l as [|e2 l'].
  - cbn [map join]. rewrite Hre. split; [assumption|].
    intros [|f] rest Hf; [lia|].
    rewrite parse_elements_S, Hparse by (lia || (cbn; tauto)).
    rewrite skip_ws_head by reflexivity. reflexivity.
  - destruct IH as (IHhead & IHparse); [discriminate|].
    cbn [map] in *. rewrite join_cons_cons, Hre.
    split; [now apply value_head_app|].
    intros [|f] rest Hf; [lia|].
    rewrite length_app in Hf. cbn [length app] in Hf.
    rewrite <- app_assoc. cbn [app].
    rewrite parse_elements_S, Hparse by (lia || (cbn; tauto)).
    rewrite skip_ws_head by reflexivity.
    change (44 =? 93)%N with false. change (44 =? 44)%N with true.
    cbn match. rewrite IHparse by lia. reflexivity.
Qed.

Lemma members_read_back props :
  Forall (fun kv => exists s,
              SerializeJSONProperty (snd kv) = Some s
              /\ reads_back (snd kv) s) props ->
  props <> [] ->
  (exists t, join [44%N] (flat_map render_member props) = 34%N :: t)
  /\ forall fuel rest,
       S (length (join [44%N] (flat_map render_member props))) < fuel ->
       parse_members fuel
         (join [44%N] (flat_map render_member props) ++ 125%N :: rest)
       = Some (props, rest).
Proof.
  induction 1 as [|[k v] l (s & Hs & Hhead & Hparse) Hl IH]; [congruence|].
  intros _. cbn [snd] in Hs, Hparse.
  assert (Hre : render_member (k, v) = [QuoteJSONString k ++ 58%N :: s])
    by (unfold render_member; cbn [fst snd]; now rewrite Hs).
  cbn [flat_map]. rewrite Hre.
  assert (Hstep : forall f tail,
             length s < f -> delimited tail ->
             parse_members (S f)
               ((QuoteJSONString k ++ 58%N :: s) ++ tail)
             = match skip_ws tail with
               | [] => None
               | c :: rest3 =>
                   if (c =? 125)%N then Some ([(k, v)], rest3)
                   else if (c =? 44)%N then
                     match parse_members f rest3 with
                     | Some (members, rest4) =>
                         Some ((k, v) :: members, rest4)
                     | None => None
                     end
                   else None
               end).
  { intros f tail Hf Htail. unfold QuoteJSONString.
    cbn [app]. rewrite <- !app_assoc. cbn [app].
    rewrite parse_members_S, skip_ws_head by reflexivity.
    change (34 =? 34)%N with true. cbn match.
    rewrite parse_quoted_units, skip_ws_head by reflexivity.
    change (58 =? 58)%N with true. cbn match.
    now rewrite Hparse. }
  destruct l as [|[k2 v2] l'].
  - cbn [flat_map app join]. split; [eexists; reflexivity|].
    intros [|f] rest Hf; [lia|].
    unfold QuoteJSONString in Hf. cbn [length app] in Hf.
    rewrite ?length_app in Hf. cbn [length] in Hf.
    rewrite Hstep by (lia || (cbn; tauto)).
    rewrite skip_ws_head by reflexivity. reflexivity.
  - destruct IH as ((t & IHhead) & IHparse); [discriminate|].
    cbn [app].
    destruct (flat_map render_member ((k2, v2) :: l')) as [|m ms] eqn:Em.
    { cbn in IHhead. discriminate. }
    rewrite join_cons_cons. split; [eexists; reflexivity|].
    intros [|f] rest Hf; [lia|].
    unfold QuoteJSONString in Hf. cbn [length app] in Hf.
    rewrite ?length_app in Hf. cbn [length app] in Hf.
    rewrite ?length_app in Hf. cbn [length] in Hf.
    rewrite <- app_assoc. cbn [app].
    rewrite Hstep by (lia || (cbn; tauto)).
    rewrite skip_ws_head by reflexivity.
    change (44 =? 125)%N with false. change (44 =? 44)%N with true.
    cbn match. rewrite IHparse by lia. reflexivity.
Qed.

Lemma forallb_Forall_imp {A : Type} (f : A -> bool) (Q : A -> Prop)
    (l : list A) :
  Forall (fun x => f x = true -> Q x) l -> forallb f l = true -> Forall Q l.
Proof.
  induction 1 as [|x l Hx Hl IH]; [constructor|].
  cbn [forallb]. intros H. apply andb_true_iff in H. destruct H as (H1 & H2).
  constructor; auto.
Qed.

(** Every representable value has a text, and the parser reads the text
    back as the value. *)
Lemma representable_reads_back v :
  json_representable v = true ->
  exists s, SerializeJSONProperty v = Some s /\ reads_back v s.
Proof.
  induction v as [| |b|n|s|elems IH|props IH] using jsvalue_nested_ind;
    intros Hrep.
  - discriminate.
  - exists (js "null"). split; [reflexivity|]. split.
    + exists 110%N, (js "ull"). repeat split. discriminate.
    + intros [|f] rest Hf _; [lia | reflexivity].
  - exists (if b then js "true" else js "false").
    split; [reflexivity|]. destruct b; split.
    + exists 116%N, (js "rue"). repeat split. discriminate.
    + intros [|f] rest Hf _; [lia | reflexivity].
    + exists 102%N, (js "alse"). repeat split. discriminate.
    + intros [|f] rest Hf _; [lia | reflexivity].
  - destruct n as [z| |neg]; try discriminate.
    exists (Number_toString z). split; [reflexivity|].
    apply reads_back_number.
  - exists (QuoteJSONString s). split; [reflexivity|].
    apply reads_back_string.
  - cbn [json_representable] in Hrep.
    pose proof (forallb_Forall_imp _ _ IH Hrep) as Hall.
    rewrite serialize_array. eexists. split; [reflexivity|]. split.
    + eexists; eexists. repeat split. discriminate.
    + intros [|f] rest Hf _; [lia|]. cbn [length] in Hf.
      rewrite length_app in Hf. cbn [length] in Hf.
      cbn [app]. rewrite <- app_assoc. cbn [app].
      rewrite parse_value_S, skip_ws_head by reflexivity.
      change (91 =? 34)%N with false. change (91 =? 91)%N with true.
      cbn match.
      destruct elems as [|e l]; [reflexivity|].
      destruct (elements_read_back Hall) as ((c & t & E & Hws & H93) & Hp);
        [discriminate|].
      rewrite Hp by lia. rewrite E. cbn [app].
      rewrite skip_ws_head by assumption.
      destruct (N.eqb_spec c 93); [contradiction | reflexivity].
  - cbn [json_representable] in Hrep. apply andb_true_iff in Hrep.
    destruct Hrep as (Hkeys & Hrep).
    pose proof (forallb_Forall_imp
                  (fun kv => json_representable (snd kv)) _ IH Hrep) as Hall.
    rewrite serialize_object. eexists. split; [reflexivity|]. split.
    + eexists; eexists. repeat split. discriminate.
    + intros [|f] rest Hf _; [lia|]. cbn [length] in Hf.
      rewrite length_app in Hf. cbn [length] in Hf.
      cbn [app]. rewrite <- app_assoc. cbn [app].
      rewrite parse_value_S, skip_ws_head by reflexivity.
      change (123 =? 34)%N with false. change (123 =? 91)%N with false.
      change (123 =? 123)%N with true. cbn match.
      destruct props as [|kv l]; [reflexivity|].
      destruct (members_read_back Hall) as ((t & E) & Hp); [discriminate|].
      rewrite Hp by lia. rewrite E. cbn [app].
      rewrite skip_ws_head by reflexivity.
      change (34 =? 125)%N with false. cbn match.
      now rewrite build_object_distinct.
Qed.

(** [JSON.parse(JSON.stringify(v))] is [v] for a representable [v]. *)
Lemma JSON_parse_stringify v :
  json_representable v = true ->
  exists text, JSON_stringify v = Some text /\ JSON_parse text = Some v.
Proof.
  intros Hrep.
  destruct (representable_reads_back v Hrep) as (s & Hs & _ & Hparse).
  exists s. split; [exact Hs|].
  unfold JSON_parse.
  specialize (Hparse (S (length s)) [] ltac:(lia) I).
  rewrite app_nil_r in Hparse. now rewrite Hparse.
Qed.

(** ** The channel data of a presence authorization *)





(** ** Further properties: construction *)

(** X1. [new Pusher(config)] throws exactly when [appId], [key] or
    [secret] is empty, always with the same message, and gives an
    instance otherwise. *)
Theorem constructor_throws_iff_credential_missing (config : PusherConfig) :
  (Pusher.constructor config
   = Throw (JsError (js "Pusher config requires appId, key, and secret"))
   <-> cfg_appId config = [] \/ cfg_key config = []
       \/ cfg_secret config = [])
  /\ ((exists p, Pusher.constructor config = Normal p)
      <-> cfg_appId config <> [] /\ cfg_key config <> []
          /\ cfg_secret config <> []).
Proof.
  unfold Pusher.constructor.
  destruct (str_falsy (cfg_appId config) || str_falsy (cfg_key config)
            || str_falsy (cfg_secret config)) eqn:E.
  - assert (Hd : cfg_appId config = [] \/ cfg_key config = []
                 \/ cfg_secret config = []).
    { apply orb_true_iff in E. destruct E as [E | E].
      - apply orb_true_iff in E.
        destruct E as [E | E]; apply str_falsy_true in E; tauto.
      - apply str_falsy_true in E. tauto. }
    split; split.
    + intros _. exact Hd.
    + reflexivity.
    + intros (p & H). discriminate H.
    + intros (H1 & H2 & H3). tauto.
  - apply orb_false_iff in E. destruct E as (E & E3).
    apply orb_false_iff in E. destruct E as (E1 & E2).
    assert (Hn : cfg_appId config <> [] /\ cfg_key config <> []
                 /\ cfg_secret config <> []).
    { repeat split; intros H; apply str_falsy_true in H; congruence. }
    split; split.
    + intros H. discriminate H.
    + tauto.
    + intros _. exact Hn.
    + intros _. eexists. reflexivity.
Qed.

(** X2. A constructed instance keeps the three credentials of the
    configuration, none of them empty; its cluster is the configured one,
    or [mt1] when the configuration has none or an empty one, so it is
    never empty; TLS is off only when [useTLS] is [false]; and the base
    URL is [https://api-<cluster>.pusher.com], with [http] when TLS is
    off. *)
Theorem constructed_instance_shape (config : PusherConfig) (p : Pusher.t) :
  Pusher.constructor config = Normal p ->
  Pusher.appId p = cfg_appId config /\ Pusher.key p = cfg_key config
  /\ Pusher.secret p = cfg_secret config
  /\ Pusher.appId p <> [] /\ Pusher.key p <> [] /\ Pusher.secret p <> []
  /\ Pusher.cluster p
     = match cfg_cluster config with
       | Some (c :: r) => c :: r
       | _ => js "mt1"
       end
  /\ Pusher.cluster p <> []
  /\ (Pusher.useTLS p = false <-> cfg_useTLS config = Some false)
  /\ Pusher.baseUrl p
     = (if Pusher.useTLS p then js "https" else js "http")
       ++ js "://api-" ++ Pusher.cluster p ++ js ".pusher.com".
Proof.
  intros H.
  destruct (constructor_fields _ H) as (Ha & Hk & Hs & Na & Nk & Ns).
  rewrite Ha, Hk, Hs. do 6 (split; [assumption || reflexivity|]).
  unfold Pusher.constructor in H.
  rewrite (str_falsy_false Na), (str_falsy_false Nk), (str_falsy_false Ns)
    in H.
  cbn [orb] in H. injection H as <-. cbn [Pusher.cluster Pusher.useTLS
                                           Pusher.baseUrl].
  split; [destruct (cfg_cluster config) as [[|c r]|]; reflexivity|].
  split; [destruct (cfg_cluster config) as [[|c r]|]; discriminate|].
  split; [|reflexivity].
  destruct (cfg_useTLS config) as [[|]|]; split; congruence.
Qed.

Lemma constructed_instance_shape_witness :
  Pusher.cluster demo_pusher = js "mt1"
  /\ Pusher.baseUrl demo_pusher = js "https://api-mt1.pusher.com".
Proof.
  destruct (constructed_instance_shape demo_config demo_pusher_constructed)
    as (_ & _ & _ & _ & _ & _ & Hc & _ & _ & Hb).
  split; [exact Hc | exact Hb].
Defined.

(** ** Further properties: the write calls *)

(** X3. [computeMD5] never throws.  When the runtime computes the digest
    it returns its lowercase hex and logs nothing but the digest; when the
    runtime rejects MD5 it warns once and returns the empty string. *)
Theorem computeMD5_swallows_rejection
    (rt : Runtime) (body : jsstring) (tr : list event) :
  (forall h,
      subtle_digest (js "MD5") (TextEncoder_encode body) = Normal h ->
      Pusher.computeMD5 body tr
      = (Normal (hex_of_bytes h),
         tr ++ [EvDigest (js "MD5") (TextEncoder_encode body)]))
  /\ (forall e,
         subtle_digest (js "MD5") (TextEncoder_encode body) = Throw e ->
         Pusher.computeMD5 body tr
         = (Normal [],
            tr ++ [EvDigest (js "MD5") (TextEncoder_encode body);
                   EvWarn (js "MD5 not available, using empty hash")]))
  /\ exists md5,
       fst (Pusher.computeMD5 body tr) = Normal md5
       /\ forallb is_lower_hex md5 = true
       /\ Nat.even (length md5) = true.
Proof.
  rewrite computeMD5_run. unfold computed_md5, md5_events.
  repeat split.
  - intros h Hd. rewrite Hd. reflexivity.
  - intros e Hd. rewrite Hd. reflexivity.
  - destruct (subtle_digest _ _) as [h|e]; eexists;
      (split; [reflexivity|]); split; try reflexivity.
    + apply hex_of_bytes_lower.
    + rewrite hex_of_bytes_length. induction (length h) as [|n IH];
        [reflexivity|].
      replace (2 * S n) with (S (S (2 * n))) by lia. exact IH.
Qed.

Lemma computeMD5_swallows_rejection_witness :
  Pusher.computeMD5 (rt := workers_runtime) (js "{}") []
  = (Normal [],
     [EvDigest (js "MD5") (TextEncoder_encode (js "{}"));
      EvWarn (js "MD5 not available, using empty hash")]).
Proof.
  apply (proj1 (proj2 (@computeMD5_swallows_rejection workers_runtime
                         (js "{}") []))
           (JsError (js "Unrecognized algorithm name"))).
  reflexivity.
Defined.

Section WriteCalls.
Context {rt : Runtime}.
Variable this : Pusher.t.

Ltac open_hyps :=
  repeat match goal with
    | H : exists _, _ |- _ => destruct H
    | H : _ /\ _ |- _ => destruct H
    end.

Ltac settle_write :=
  repeat split; try discriminate; intros; open_hyps; try congruence;
  try (do 3 eexists; repeat split;
       first [reflexivity | eassumption | congruence]).

Lemma write_run_normal endpoint body tr :
  exists r,
    fst (write_run this endpoint body tr) = Normal r
    /\ (success r = true <-> accepted this endpoint body)
    /\ (success r = true -> error r = None /\ status r = None)
    /\ (success r = false -> error r <> None)
    /\ (forall st,
           status r = Some st <->
           exists text, refused this endpoint body st text).
Proof.
  unfold write_run, accepted, refused, write_outcome, post_init.
  destruct (subtle_hmac _ _) as [sig|e] eqn:Hh; cbn [fst].
  - destruct (global_fetch _ _) as [response|e] eqn:Hf.
    + destruct (resp_text response) as [text|e] eqn:Ht.
      * destruct (resp_ok response) eqn:Hok; eexists;
          (split; [reflexivity|]); cbn [success error status];
          settle_write.
      * eexists. split; [reflexivity|]. cbn [success error status].
        settle_write.
    + eexists. split; [reflexivity|]. cbn [success error status].
      settle_write.
  - eexists. split; [reflexivity|]. cbn [success error status].
    settle_write.
Qed.
Lemma write_run_refused endpoint body st text tr :
  refused this endpoint body st text ->
  fst (write_run this endpoint body tr)
  = Normal (mkTriggerResponse false
              (Some (if str_falsy text
                     then js "HTTP " ++ Number_toString st else text))
              (Some st)).
Proof.
  intros (sig & response & Hh & Hf & Hok & Hst & Ht).
  unfold write_run, write_outcome. rewrite Hh. cbn [fst].
  unfold post_init in Hf. rewrite Hf, Ht, Hok, Hst. reflexivity.
Qed.

Lemma count_fetches_app a b :
  count_fetches (a ++ b) = count_fetches a + count_fetches b.
Proof. unfold count_fetches. now rewrite filter_app, length_app. Qed.

Lemma count_fetches_hmac_events raw data :
  count_fetches (hmac_events raw data) = 0.
Proof. unfold hmac_events. destruct (subtle_importKey raw); reflexivity. Qed.

Lemma count_fetches_md5_events body : count_fetches (md5_events body) = 0.
Proof. unfold md5_events. destruct (subtle_digest _ _); reflexivity. Qed.

Lemma write_run_fetches endpoint body tr :
  count_fetches (snd (write_run this endpoint body tr))
  = count_fetches tr
    + match subtle_hmac (TextEncoder_encode (Pusher.secret this))
              (write_signed this endpoint body) with
      | Normal _ => 1
      | Throw _ => 0
      end.
Proof.
  unfold write_run. destruct (subtle_hmac _ _); cbn [snd];
    rewrite !count_fetches_app, count_fetches_md5_events,
      count_fetches_hmac_events;
    cbn [count_fetches filter is_fetch length]; lia.
Qed.

Lemma read_run_fetches failure path query tr :
  count_fetches (snd (read_run this failure path query tr))
  = count_fetches tr
    + match subtle_hmac (TextEncoder_encode (Pusher.secret this))
              (TextEncoder_encode
                 (Pusher.stringToSign this (js "GET") path unix_seconds
                    None)) with
      | Normal _ => 1
      | Throw _ => 0
      end.
Proof.
  unfold read_run. destruct (subtle_hmac _ _); cbn [snd];
    rewrite !count_fetches_app, count_fetches_hmac_events;
    cbn [count_fetches filter is_fetch length]; lia.
Qed.
End WriteCalls.


(** X5. When the server answers a write call with a response that is not
    [ok], the result carries the status of the response and, as [error],
    the text of the response, or [HTTP <status>] when the text is empty;
    and a result has a [status] only in this case, so a failure of the
    network or of the signing is told apart from a refusal by the
    server. *)
Theorem write_calls_report_refusal
    (rt : Runtime) (this : Pusher.t) (tr : list event) :
  (forall call st text,
      refused this (js "/events") (trigger_body call) st text ->
      fst (Pusher.trigger this call tr)
      = Normal (mkTriggerResponse false
                  (Some (if str_falsy text
                         then js "HTTP " ++ Number_toString st else text))
                  (Some st)))
  /\ (forall events st text,
         refused this (js "/batch_events") (batch_body events) st text ->
         fst (Pusher.triggerBatch this events tr)
         = Normal (mkTriggerResponse false
                     (Some (if str_falsy text
                            then js "HTTP " ++ Number_toString st else text))
                     (Some st)))
  /\ (forall call r st,
         fst (Pusher.trigger this call tr) = Normal r ->
         status r = Some st ->
         exists text, refused this (js "/events") (trigger_body call) st text)
  /\ (forall events r st,
         fst (Pusher.triggerBatch this events tr) = Normal r ->
         status r = Some st ->
         exists text,
           refused this (js "/batch_events") (batch_body events) st text).
Proof.
  repeat split.
  - intros call st text H. rewrite trigger_run.
    now apply write_run_refused.
  - intros events st text H. rewrite triggerBatch_run.
    now apply write_run_refused.
  - intros call r st Hr Hst. rewrite trigger_run in Hr.
    destruct (write_run_normal this (js "/events") (trigger_body call) tr)
      as (r' & H1 & _ & _ & _ & H5).
    unfold trigger_body in H1. rewrite Hr in H1. injection H1 as <-.
    now apply H5.
  - intros events r st Hr Hst. rewrite triggerBatch_run in Hr.
    destruct (write_run_normal this (js "/batch_events")
                (batch_body events) tr) as (r' & H1 & _ & _ & _ & H5).
    unfold batch_body in H1. rewrite Hr in H1. injection H1 as <-.
    now apply H5.
Qed.

Lemma write_calls_report_refusal_witness :
  fst (Pusher.trigger (rt := refused_runtime) demo_pusher hello_call [])
  = Normal (mkTriggerResponse false (Some (js "HTTP 401")) (Some 401%Z)).
Proof.
  apply (proj1 (@write_calls_report_refusal refused_runtime demo_pusher [])
           hello_call 401%Z []).
  do 2 eexists. split.
  - apply reference_runtime_computes_hmac.
    apply TextEncoder_encode_nonempty. discriminate.
  - repeat split; reflexivity.
Defined.

(** X6. No REST call sends a request without a signature, and none sends
    more than one: a call whose signing fails adds no [fetch] to the log,
    every other call adds exactly one. *)
Theorem rest_calls_fetch_once_signed
    (rt : Runtime) (this : Pusher.t) (tr : list event) :
  let hmac := subtle_hmac (TextEncoder_encode (Pusher.secret this)) in
  let added (signed : list byte) :=
    match hmac signed with Normal _ => 1 | Throw _ => 0 end in
  (forall call,
      count_fetches (snd (Pusher.trigger this call tr))
      = count_fetches tr
        + added (write_signed this (js "/events") (trigger_body call)))
  /\ (forall events,
         count_fetches (snd (Pusher.triggerBatch this events tr))
         = count_fetches tr
           + added (write_signed this (js "/batch_events")
                      (batch_body events)))
  /\ (forall channel options,
         count_fetches (snd (Pusher.getChannel this channel options tr))
         = count_fetches tr
           + added (TextEncoder_encode
                      (Pusher.stringToSign this (js "GET")
                         (js "/apps/" ++ Pusher.appId this
                          ++ js "/channels/" ++ channel)
                         unix_seconds None)))
  /\ (forall prefix options,
         count_fetches (snd (Pusher.getChannels this prefix options tr))
         = count_fetches tr
           + added (TextEncoder_encode
                      (Pusher.stringToSign this (js "GET")
                         (js "/apps/" ++ Pusher.appId this ++ js "/channels")
                         unix_seconds None))).
Proof.
  cbv zeta. repeat split; intros.
  - rewrite trigger_run. apply write_run_fetches.
  - rewrite triggerBatch_run. apply write_run_fetches.
  - rewrite getChannel_run. apply read_run_fetches.
  - rewrite getChannels_run. apply read_run_fetches.
Qed.

(** ** Further properties: the read calls *)

Section ReadCalls.
Context {rt : Runtime}.
Variable this : Pusher.t.

Lemma read_run_outcome failure path query tr sig :
  subtle_hmac (TextEncoder_encode (Pusher.secret this))
    (TextEncoder_encode
       (Pusher.stringToSign this (js "GET") path unix_seconds None))
  = Normal sig ->
  let fetched :=
    global_fetch (read_url this path (query (hex_of_bytes sig))) get_init in
  (forall e,
      fetched = Throw e ->
      fst (read_run this failure path query tr) = Throw e)
  /\ (forall response,
         fetched = Normal response -> resp_ok response = true ->
         fst (read_run this failure path query tr) = resp_json response)
  /\ (forall response text,
         fetched = Normal response -> resp_ok response = false ->
         resp_text response = Normal text ->
         fst (read_run this failure path query tr)
         = Throw (JsError
                    (failure
                     ++ (if str_falsy text
                         then resp_statusText response else text))))
  /\ (forall response e,
         fetched = Normal response -> resp_ok response = false ->
         resp_text response = Throw e ->
         fst (read_run this failure path query tr) = Throw e).
Proof.
  intros Hh fetched. subst fetched.
  unfold read_run, read_url, get_init, read_outcome. rewrite Hh. cbn [fst].
  repeat split.
  - intros e H. now rewrite H.
  - intros response H Hok. now rewrite H, Hok.
  - intros response text H Hok Ht. now rewrite H, Hok, Ht.
  - intros response e H Hok Ht. now rewrite H, Hok, Ht.
Qed.
End ReadCalls.

(** X7. Once the request of [getChannel] or [getChannels] is signed, the
    call settles as the request does: it returns what [response.json()]
    gives for an [ok] response; for any other response it throws an
    [Error] whose message is [Failed to get channel info: ] (or
    [Failed to get channels: ]) followed by the text of the response, or
    by its status text when the text is empty; and a failure of [fetch]
    or of reading the text is thrown on to the caller unchanged. *)
Theorem read_calls_settle_as_the_request
    (rt : Runtime) (this : Pusher.t) (tr : list event) (sig : list byte) :
  (forall channel options,
      let path :=
        js "/apps/" ++ Pusher.appId this ++ js "/channels/" ++ channel in
      let fetched :=
        global_fetch
          (read_url this path
             (Pusher.getChannel_query this unix_seconds options
                (hex_of_bytes sig))) get_init in
      let result := fst (Pusher.getChannel this channel options tr) in
      subtle_hmac (TextEncoder_encode (Pusher.secret this))
        (TextEncoder_encode
           (Pusher.stringToSign this (js "GET") path unix_seconds None))
      = Normal sig ->
      (forall e, fetched = Throw e -> result = Throw e)
      /\ (forall response,
             fetched = Normal response -> resp_ok response = true ->
             result = resp_json response)
      /\ (forall response text,
             fetched = Normal response -> resp_ok response = false ->
             resp_text response = Normal text ->
             result
             = Throw (JsError
                        (js "Failed to get channel info: "
                         ++ (if str_falsy text
                             then resp_statusText response else text))))
      /\ (forall response e,
             fetched = Normal response -> resp_ok response = false ->
             resp_text response = Throw e -> result = Throw e))
  /\ (forall prefix options,
         let path := js "/apps/" ++ Pusher.appId this ++ js "/channels" in
         let fetched :=
           global_fetch
             (read_url this path
                (Pusher.getChannels_query this unix_seconds prefix options
                   (hex_of_bytes sig))) get_init in
         let result := fst (Pusher.getChannels this prefix options tr) in
         subtle_hmac (TextEncoder_encode (Pusher.secret this))
           (TextEncoder_encode
              (Pusher.stringToSign this (js "GET") path unix_seconds None))
         = Normal sig ->
         (forall e, fetched = Throw e -> result = Throw e)
         /\ (forall response,
                fetched = Normal response -> resp_ok response = true ->
                result = resp_json response)
         /\ (forall response text,
                fetched = Normal response -> resp_ok response = false ->
                resp_text response = Normal text ->
                result
                = Throw (JsError
                           (js "Failed to get channels: "
                            ++ (if str_falsy text
                                then resp_statusText response else text))))
         /\ (forall response e,
                fetched = Normal response -> resp_ok response = false ->
                resp_text response = Throw e -> result = Throw e)).
Proof.
  split.
  - intros channel options path fetched result Hh. subst result.
    rewrite getChannel_run.
    exact (read_run_outcome this (js "Failed to get channel info: ") path
             (Pusher.getChannel_query this unix_seconds options) tr Hh).
  - intros prefix options path fetched result Hh. subst result.
    rewrite getChannels_run.
    exact (read_run_outcome this (js "Failed to get channels: ") path
             (Pusher.getChannels_query this unix_seconds prefix options) tr
             Hh).
Qed.

Lemma read_calls_settle_as_the_request_witness :
  fst (Pusher.getChannel (rt := refused_runtime) demo_pusher
         (js "presence-foobar") None [])
  = Throw (JsError (js "Failed to get channel info: Unauthorized")).
Proof.
  destruct (proj1 (@read_calls_settle_as_the_request refused_runtime
                     demo_pusher []
                     (SHA256.hmac_sha256
                        (TextEncoder_encode (Pusher.secret demo_pusher))
                        (TextEncoder_encode
                           (Pusher.stringToSign demo_pusher (js "GET")
                              (js "/apps/" ++ Pusher.appId demo_pusher
                               ++ js "/channels/" ++ js "presence-foobar")
                              (unix_seconds (rt := refused_runtime))
                              None))))
              (js "presence-foobar") None)
    as (_ & _ & H & _).
  - apply reference_runtime_computes_hmac.
    apply TextEncoder_encode_nonempty. discriminate.
  - exact (H _ [] eq_refl eq_refl eq_refl).
Defined.

(** X8. The two ways of calling [trigger] agree: positional arguments
    and an options object with the same four values run the same, and a
    single channel name runs the same as the array that holds only it. *)
Theorem trigger_overloads_agree
    (rt : Runtime) (this : Pusher.t)
    (channels : jsstring + list jsstring) (channel event : jsstring)
    (data : jsvalue) (socketId : option jsstring) :
  Pusher.trigger this (TriggerWithOptions
                         (mkTriggerOptions channels event data socketId))
  = Pusher.trigger this (TriggerPositional channels event data socketId)
  /\ Pusher.trigger this (TriggerPositional (inl channel) event data socketId)
     = Pusher.trigger this
         (TriggerPositional (inr [channel]) event data socketId).
Proof. split; reflexivity. Qed.

(** ** Further properties: the bodies of the write calls *)

Lemma serialize_none_iff v :
  SerializeJSONProperty v = None <-> v = JUndefined.
Proof.
  destruct v as [| |b|[z| |neg]|s|elems|props]; cbn [SerializeJSONProperty];
    split; intros H; try reflexivity; discriminate H.
Qed.

Lemma render_member_undefined k : render_member (k, JUndefined) = [].
Proof. reflexivity. Qed.

Lemma render_defined_props props :
  flat_map render_member (defined_props props)
  = flat_map render_member props.
Proof.
  induction props as [|[k v] props IH]; [reflexivity|].
  unfold defined_props in *. cbn [filter snd].
  destruct v; cbn [is_undefined negb flat_map]; rewrite IH;
    try reflexivity.
Qed.

Lemma serialize_defined_props props :
  SerializeJSONProperty (JObj (defined_props props))
  = SerializeJSONProperty (JObj props).
Proof. now rewrite !serialize_object, render_defined_props. Qed.

Lemma render_written_entry entry :
  render_element (written_entry entry) = render_element entry.
Proof.
  destruct entry; try reflexivity.
  unfold render_element, written_entry. now rewrite serialize_defined_props.
Qed.

Lemma data_field_shape d :
  (d = JUndefined /\ data_field d = JUndefined)
  \/ exists t, data_field d = JStr t.
Proof.
  destruct d as [| |b|[z| |neg]|s|elems|props];
    try (right; eexists; reflexivity).
  left. split; reflexivity.
Qed.

Lemma strings_representable l :
  forallb json_representable (map JStr l) = true.
Proof. induction l; [reflexivity | assumption]. Qed.

Lemma socket_id_prop_shape s :
  socket_id_prop s = []
  \/ exists x, socket_id_prop s = [(js "socket_id", JStr x)].
Proof.
  destruct s as [[|c r]|]; [now left | right; eexists; reflexivity
                            | now left].
Qed.

Lemma payload_representable (event : jsstring) (data : jsvalue)
    (channels : list jsstring) (socketId : option jsstring) :
  json_representable
    (JObj (defined_props
             ([(js "name", JStr event);
               (js "data", data_field data);
               (js "channels", JArr (map JStr channels))]
              ++ socket_id_prop socketId))) = true.
Proof.
  pose proof (strings_representable channels) as Hc.
  destruct (data_field_shape data) as [(_ & ->) | (t & ->)];
    destruct (socket_id_prop_shape socketId) as [-> | (x & ->)];
    unfold defined_props;
    cbn [app filter snd is_undefined negb json_representable forallb
         distinct_keys has_key];
    rewrite Hc; reflexivity.
Qed.

Lemma entry_representable (event : BatchTriggerEvent) :
  json_representable (written_entry (Pusher.batch_entry event)) = true.
Proof.
  unfold Pusher.batch_entry, written_entry.
  destruct (data_field_shape (ev_data event)) as [(_ & ->) | (t & ->)];
    destruct (socket_id_prop_shape (ev_socketId event)) as [-> | (x & ->)];
    unfold defined_props;
    cbn [app filter snd is_undefined negb json_representable forallb
         distinct_keys has_key];
    reflexivity.
Qed.

Lemma parse_stringify_object props :
  json_representable (JObj (defined_props props)) = true ->
  JSON_parse (stringify_object props) = Some (JObj (defined_props props)).
Proof.
  intros Hrep.
  destruct (JSON_parse_stringify _ Hrep) as (text & Ht & Hp).
  unfold stringify_object, JSON_stringify in *.
  rewrite serialize_defined_props in Ht. now rewrite Ht.
Qed.

(** X9. The body that [trigger] sends is a JSON text of one object: its
    [name] is the event name, its [channels] are the channel names in
    order, [data] is a string and is left out when the event data is
    [undefined], and [socket_id] is there only for a socket id that is
    not empty. *)
Theorem trigger_body_parses
    (channels : jsstring + list jsstring) (event : jsstring)
    (data : jsvalue) (socketId : option jsstring) :
  JSON_parse (trigger_body (TriggerPositional channels event data socketId))
  = Some (JObj
            ([(js "name", JStr event)]
             ++ match data_field data with
                | JUndefined => []
                | written => [(js "data", written)]
                end
             ++ [(js "channels", JArr (map JStr (as_array channels)))]
             ++ match socketId with
                | Some (c :: r) => [(js "socket_id", JStr (c :: r))]
                | _ => []
                end))
  /\ ((exists text, data_field data = JStr text)
      \/ (data = JUndefined /\ data_field data = JUndefined)).
Proof.
  split.
  - unfold trigger_body, Pusher.trigger_payload.
    rewrite parse_stringify_object by apply payload_representable.
    do 2 f_equal. unfold defined_props.
    destruct (data_field_shape data) as [(_ & ->) | (t & ->)];
      destruct socketId as [[|c r]|]; reflexivity.
  - destruct (data_field_shape data) as [H | H]; [now right | now left].
Qed.

(** X10. The body that [triggerBatch] sends is a JSON text of one object
    whose [batch] is an array with one entry for each event, in the order
    of the events; an entry holds [channel], [name], [data] (a string,
    left out for [undefined] data) and [socket_id] (only for a socket id
    that is not empty). *)
Theorem batch_body_parses (events : list BatchTriggerEvent) :
  JSON_parse (batch_body events)
  = Some (JObj
            [(js "batch",
              JArr (map (fun event =>
                           written_entry (Pusher.batch_entry event))
                      events))])
  /\ forall event,
       written_entry (Pusher.batch_entry event)
       = JObj ([(js "channel", JStr (ev_channel event));
                (js "name", JStr (ev_name event))]
               ++ match data_field (ev_data event) with
                  | JUndefined => []
                  | written => [(js "data", written)]
                  end
               ++ match ev_socketId event with
                  | Some (c :: r) => [(js "socket_id", JStr (c :: r))]
                  | _ => []
                  end).
Proof.
  split.
  - assert (Hrep : json_representable
                     (JObj [(js "batch",
                             JArr (map (fun event =>
                                          written_entry
                                            (Pusher.batch_entry event))
                                     events))]) = true).
    { cbn [json_representable distinct_keys has_key forallb snd negb andb].
      rewrite andb_true_r.
      induction events as [|e l IH]; [reflexivity|].
      cbn [map forallb]. now rewrite entry_representable, IH. }
    destruct (JSON_parse_stringify _ Hrep) as (text & Ht & Hp).
    unfold batch_body, stringify_object, JSON_stringify in *.
    assert (Heq : SerializeJSONProperty
                    (JObj [(js "batch",
                            JArr (map Pusher.batch_entry events))])
                  = Some text).
    { assert (Hm : map render_element (map Pusher.batch_entry events)
                   = map render_element
                       (map (fun event =>
                               written_entry (Pusher.batch_entry event))
                          events)).
      { clear. induction events as [|e l IH]; [reflexivity|].
        cbn [map]. now rewrite render_written_entry, IH. }
      rewrite <- Ht. rewrite !serialize_object. cbn [flat_map].
      unfold render_member. cbn [fst snd]. rewrite !serialize_array.
      now rewrite Hm. }
    now rewrite Heq.
  - intros event. unfold Pusher.batch_entry, written_entry, defined_props.
    f_equal.
    destruct (data_field_shape (ev_data event)) as [(_ & ->) | (t & ->)];
      destruct (ev_socketId event) as [[|c r]|]; reflexivity.
Qed.

(** X11. The event data of [trigger] and [triggerBatch] is encoded once:
    a string goes into [data] as it is; any other value that JSON can
    represent goes in as its JSON text, from which [JSON.parse] gives the
    value back.  So the string that is the JSON text of a value and the
    value itself are sent as the same [data]. *)
Theorem event_data_encoded_once (d : jsvalue) :
  (forall s, d = JStr s -> data_field d = JStr s)
  /\ ((forall s, d <> JStr s) -> json_representable d = true ->
      exists text,
        JSON_stringify d = Some text
        /\ data_field d = JStr text
        /\ JSON_parse text = Some d
        /\ data_field (JStr text) = data_field d).
Proof.
  split.
  - intros s ->. reflexivity.
  - intros Hns Hrep.
    destruct (JSON_parse_stringify _ Hrep) as (text & Ht & Hp).
    exists text. split; [exact Ht|].
    assert (Hd : data_field d = JStr text).
    { destruct d as [| |b|n|s|elems|props]; try discriminate;
        try (unfold data_field; now rewrite Ht).
      now destruct (Hns s). }
    rewrite Hd. repeat split. exact Hp.
Qed.

Lemma event_data_encoded_once_witness :
  exists text,
    data_field (JObj [(js "message", JStr (js "Hello World!"))]) = JStr text
    /\ JSON_parse text
       = Some (JObj [(js "message", JStr (js "Hello World!"))]).
Proof.
  destruct (proj2 (event_data_encoded_once
                     (JObj [(js "message", JStr (js "Hello World!"))])))
    as (text & _ & Hd & Hp & _).
  - intros s. discriminate.
  - reflexivity.
  - exists text. split; [exact Hd | exact Hp].
Defined.

(** ** Further properties: the requests on the wire *)

Lemma url_safe_unit_bounds c :
  url_safe_unit c = true -> (c < 128)%N /\ c <> 32%N.
Proof.
  unfold url_safe_unit. intros H.
  repeat (apply orb_true_iff in H; destruct H as [H | H]);
    try (apply andb_true_iff in H; destruct H as [H1 H2];
         apply N.leb_le in H1; apply N.leb_le in H2; lia);
    apply N.eqb_eq in H; lia.
Qed.

Lemma to_N_byte_of_N c : (c < 256)%N -> Byte.to_N (byte_of_N c) = c.
Proof.
  intros Hc. unfold byte_of_N. rewrite N.mod_small by exact Hc.
  destruct (Byte.of_N c) as [b|] eqn:E.
  - now apply Byte.to_of_N.
  - apply Byte.of_N_None_iff in E. lia.
Qed.

Lemma encode_safe_unit c t :
  url_safe_unit c = true ->
  TextEncoder_encode (c :: t) = byte_of_N c :: TextEncoder_encode t.
Proof.
  intros H. destruct (@url_safe_unit_bounds c H) as [Hc _].
  cbn [TextEncoder_encode].
  assert (H1 : is_lead_surrogate c = false).
  { unfold is_lead_surrogate. apply andb_false_iff. left.
    apply N.leb_gt. lia. }
  assert (H2 : is_trail_surrogate c = false).
  { unfold is_trail_surrogate. apply andb_false_iff. left.
    apply N.leb_gt. lia. }
  rewrite H1, H2. unfold utf8_of_code_point.
  apply N.ltb_lt in Hc. rewrite Hc. reflexivity.
Qed.

Lemma urlencode_byte_safe c : url_safe_unit c = true -> urlencode_byte c = [c].
Proof.
  intros H. destruct (@url_safe_unit_bounds c H) as [_ Hc].
  unfold urlencode_byte. apply N.eqb_neq in Hc. rewrite Hc.
  unfold url_safe_unit in H. now rewrite H.
Qed.

(** The serializer leaves a text of safe units as it is. *)
Lemma urlencode_safe s : url_safe s = true -> urlencode s = s.
Proof.
  unfold url_safe, urlencode. induction s as [|c t IH]; [reflexivity|].
  cbn [forallb]. intros H. apply andb_true_iff in H. destruct H as [Hc Ht].
  rewrite (@encode_safe_unit c t Hc). cbn [flat_map].
  rewrite to_N_byte_of_N
    by (destruct (@url_safe_unit_bounds c Hc); lia).
  rewrite (@urlencode_byte_safe c Hc), (IH Ht). reflexivity.
Qed.

Lemma lower_hex_url_safe s :
  forallb is_lower_hex s = true -> url_safe s = true.
Proof.
  unfold url_safe. induction s as [|c t IH]; [reflexivity|].
  cbn [forallb]. intros H. apply andb_true_iff in H. destruct H as [Hc Ht].
  rewrite (IH Ht), andb_true_r.
  unfold is_lower_hex in Hc. unfold url_safe_unit.
  apply orb_true_iff in Hc. destruct Hc as [Hc | Hc].
  - rewrite Hc. now rewrite !orb_true_r.
  - apply andb_true_iff in Hc. destruct Hc as [H1 H2].
    apply N.leb_le in H1. apply N.leb_le in H2.
    assert (H3 : (97 <=? c)%N = true) by (apply N.leb_le; lia).
    assert (H4 : (c <=? 122)%N = true) by (apply N.leb_le; lia).
    rewrite H3, H4. now rewrite !orb_true_r.
Qed.

Lemma hex_of_bytes_url_safe arr : url_safe (hex_of_bytes arr) = true.
Proof. apply lower_hex_url_safe, hex_of_bytes_lower. Qed.

Lemma uint_units_url_safe u : url_safe (uint_units u) = true.
Proof. induction u; [reflexivity | exact IHu ..]. Qed.

Lemma Number_toString_url_safe z : url_safe (Number_toString z) = true.
Proof.
  unfold Number_toString. destruct (Z.to_int z) as [u|u].
  - apply uint_units_url_safe.
  - exact (uint_units_url_safe u).
Qed.

Lemma fetches_app a b : fetches (a ++ b) = fetches a ++ fetches b.
Proof. apply filter_app. Qed.

Lemma fetches_hmac_events {rt : Runtime} raw data :
  fetches (hmac_events raw data) = [].
Proof. unfold hmac_events. destruct (subtle_importKey raw); reflexivity. Qed.

Lemma fetches_md5_events {rt : Runtime} body : fetches (md5_events body) = [].
Proof. unfold md5_events. destruct (subtle_digest _ _); reflexivity. Qed.

Lemma canonical_query_with_md5 key ts md5 :
  md5 <> [] ->
  canonical_query key ts (Some md5)
  = js "auth_key=" ++ key ++ js "&auth_timestamp=" ++ Number_toString ts
    ++ js "&auth_version=1.0" ++ js "&body_md5=" ++ md5.
Proof. destruct md5; [congruence | reflexivity]. Qed.

Lemma canonical_query_without_md5 key ts :
  canonical_query key ts None
  = js "auth_key=" ++ key ++ js "&auth_timestamp=" ++ Number_toString ts
    ++ js "&auth_version=1.0".
Proof. unfold canonical_query. now rewrite app_nil_r. Qed.

Lemma hex_of_bytes_nonempty h : h <> [] -> hex_of_bytes h <> [].
Proof.
  intros Hh E. apply (f_equal (@length _)) in E.
  rewrite hex_of_bytes_length in E. destruct h; [congruence|].
  cbn [length] in E. lia.
Qed.

Ltac safe_names :=
  repeat match goal with
    | |- context [urlencode (js ?s)] =>
        rewrite (@urlencode_safe (js s) eq_refl)
    end.

Ltac split_literals :=
  change (js "auth_key=") with (js "auth_key" ++ js "=");
  change (js "&auth_timestamp=")
    with (js "&" ++ js "auth_timestamp" ++ js "=");
  change (js "&auth_version=1.0")
    with (js "&" ++ js "auth_version" ++ js "=" ++ js "1.0");
  change (js "&body_md5=") with (js "&" ++ js "body_md5" ++ js "=");
  change (js "&filter_by_prefix=")
    with (js "&" ++ js "filter_by_prefix" ++ js "=");
  change (js "&info=") with (js "&" ++ js "info" ++ js "=");
  change (js "&auth_signature=")
    with (js "&" ++ js "auth_signature" ++ js "=");
  repeat rewrite <- app_assoc.

Lemma write_query_text (this : Pusher.t) ts md5 sig :
  url_safe (Pusher.key this) = true -> md5 <> [] ->
  usp_toString
    (Pusher.write_query this ts (hex_of_bytes md5) (hex_of_bytes sig))
  = canonical_query (Pusher.key this) ts (Some (hex_of_bytes md5))
    ++ js "&auth_signature=" ++ hex_of_bytes sig.
Proof.
  intros Hk Hm.
  rewrite canonical_query_with_md5 by now apply hex_of_bytes_nonempty.
  unfold usp_toString, Pusher.write_query. cbn [map fst snd join].
  safe_names.
  rewrite (urlencode_safe _ Hk),
    !(urlencode_safe _ (hex_of_bytes_url_safe _)),
    (urlencode_safe _ (Number_toString_url_safe ts)).
  split_literals. reflexivity.
Qed.

(** [set] appends a pair whose name the object does not hold. *)
Lemma usp_set_fresh q name v :
  forallb (fun kv => negb (str_eqb (fst kv) name)) q = true ->
  usp_set q name v = q ++ [(name, v)].
Proof.
  induction q as [|[k w] q IH]; [reflexivity|].
  cbn [forallb fst usp_set app]. intros H.
  apply andb_true_iff in H. destruct H as [Hk Hq].
  apply negb_true_iff in Hk. rewrite Hk, (IH Hq). reflexivity.
Qed.

Lemma getChannels_query_text (this : Pusher.t) ts prefix options sig :
  url_safe (Pusher.key this) = true ->
  usp_toString
    (Pusher.getChannels_query this ts prefix options (hex_of_bytes sig))
  = canonical_query (Pusher.key this) ts None
    ++ prefix_text prefix ++ info_text options
    ++ js "&auth_signature=" ++ hex_of_bytes sig.
Proof.
  intros Hk. rewrite canonical_query_without_md5.
  unfold Pusher.getChannels_query, Pusher.prefix_entry, Pusher.info_entry,
    prefix_text, info_text.
  destruct prefix as [[|c r]|]; destruct options as [[[l|]]|];
    cbn [str_falsy info app]; rewrite usp_set_fresh by reflexivity;
    unfold usp_toString; cbn [app map fst snd join]; safe_names;
    rewrite (urlencode_safe _ Hk),
      (urlencode_safe _ (hex_of_bytes_url_safe _)),
      (urlencode_safe _ (Number_toString_url_safe ts));
    split_literals; reflexivity.
Qed.

Lemma getChannel_query_text (this : Pusher.t) ts options sig :
  url_safe (Pusher.key this) = true ->
  usp_toString (Pusher.getChannel_query this ts options (hex_of_bytes sig))
  = canonical_query (Pusher.key this) ts None
    ++ info_text options ++ js "&auth_signature=" ++ hex_of_bytes sig.
Proof.
  intros Hk.
  exact (@getChannels_query_text this ts None options sig Hk).
Qed.

Section Wire.
Context {rt : Runtime}.
Variable this : Pusher.t.
Hypothesis Hrt : computes_hmac_sha256 rt.
Hypothesis Hsecret : Pusher.secret this <> [].
Hypothesis Hkey : url_safe (Pusher.key this) = true.

Lemma write_run_request endpoint body h tr :
  subtle_digest (js "MD5") (TextEncoder_encode body) = Normal h ->
  h <> [] ->
  fetches (snd (write_run this endpoint body tr))
  = fetches tr
    ++ [signed_request this (js "POST")
          (js "/apps/" ++ Pusher.appId this ++ endpoint) unix_seconds
          (Some (hex_of_bytes h)) [] (post_init body)].
Proof.
  intros Hd Hh. unfold write_run, write_signed, write_url, computed_md5.
  rewrite Hd, (conformant_hmac _ Hrt Hsecret). cbn [snd].
  rewrite !fetches_app, fetches_md5_events, fetches_hmac_events.
  cbn [app fetches filter is_fetch]. f_equal.
  unfold signed_request, post_init.
  rewrite (write_query_text this _ _ Hkey Hh), stringToSign_canonical.
  cbn [app]. repeat rewrite <- app_assoc. reflexivity.
Qed.

Lemma read_run_request failure path query unsigned tr :
  (forall sig,
      usp_toString (query (hex_of_bytes sig))
      = canonical_query (Pusher.key this) unix_seconds None
        ++ unsigned ++ js "&auth_signature=" ++ hex_of_bytes sig) ->
  fetches (snd (read_run this failure path query tr))
  = fetches tr
    ++ [signed_request this (js "GET") path unix_seconds None unsigned
          get_init].
Proof.
  intros Hq. unfold read_run.
  rewrite (conformant_hmac _ Hrt Hsecret). cbn [snd].
  rewrite !fetches_app, fetches_hmac_events.
  cbn [app fetches filter is_fetch]. f_equal.
  unfold signed_request, get_init.
  now rewrite Hq, stringToSign_canonical.
Qed.
End Wire.

(** X12. On a runtime that computes HMAC-SHA256 and an MD5 digest, with
    a secret that is not empty and a key of URL-safe characters, [trigger]
    and [triggerBatch] send one request: a [POST] of the body as JSON to
    [<baseUrl>/apps/<appId>/events] (or [/batch_events]) whose query is
    exactly the string that was signed after the path, with [body_md5]
    the hex digest of the body, followed by [auth_signature], the
    HMAC-SHA256 of [POST], the path and that query in lowercase hex. *)
Theorem write_requests_carry_what_was_signed
    (rt : Runtime) (this : Pusher.t) (tr : list event) :
  computes_hmac_sha256 rt -> Pusher.secret this <> [] ->
  url_safe (Pusher.key this) = true ->
  (forall call h,
      subtle_digest (js "MD5") (TextEncoder_encode (trigger_body call))
      = Normal h ->
      h <> [] ->
      fetches (snd (Pusher.trigger this call tr))
      = fetches tr
        ++ [signed_request this (js "POST")
              (js "/apps/" ++ Pusher.appId this ++ js "/events")
              unix_seconds (Some (hex_of_bytes h)) []
              (post_init (trigger_body call))])
  /\ (forall events h,
         subtle_digest (js "MD5") (TextEncoder_encode (batch_body events))
         = Normal h ->
         h <> [] ->
         fetches (snd (Pusher.triggerBatch this events tr))
         = fetches tr
           ++ [signed_request this (js "POST")
                 (js "/apps/" ++ Pusher.appId this ++ js "/batch_events")
                 unix_seconds (Some (hex_of_bytes h)) []
                 (post_init (batch_body events))]).
Proof.
  intros Hrt Hsecret Hkey. split.
  - intros call h Hd Hh. rewrite trigger_run.
    now apply write_run_request.
  - intros events h Hd Hh. rewrite triggerBatch_run.
    now apply write_run_request.
Qed.

Lemma write_requests_carry_what_was_signed_witness :
  fetches
    (snd (Pusher.trigger (rt := digesting_runtime) demo_pusher hello_call []))
  = [signed_request demo_pusher (js "POST") (js "/apps/123456/events")
       1700000000
       (Some (hex_of_bytes
                (firstn 16
                   (SHA256.sha256
                      (TextEncoder_encode (trigger_body hello_call))))))
       [] (post_init (trigger_body hello_call))].
Proof.
  apply (proj1 (@write_requests_carry_what_was_signed digesting_runtime
                  demo_pusher []
                  (reference_runtime_computes_hmac _ _ _)
                  ltac:(discriminate) eq_refl)
           hello_call).
  - reflexivity.
  - intros E. apply (f_equal (@length _)) in E.
    rewrite length_firstn, sha256_length in E. discriminate E.
Defined.

(** X13. Under the same conditions [getChannel] and [getChannels] send
    one [GET] to [<baseUrl><path>] where the path is the signed one, with
    the channel name as given.  The query is the signed query
    ([auth_key], [auth_timestamp], [auth_version]), then
    [filter_by_prefix] for a prefix that is not empty, then [info] with
    the attributes joined by an encoded comma whenever [options.info] is
    given, even as an empty array, and [auth_signature] last. *)
Theorem read_requests_carry_what_was_signed
    (rt : Runtime) (this : Pusher.t) (tr : list event) :
  computes_hmac_sha256 rt -> Pusher.secret this <> [] ->
  url_safe (Pusher.key this) = true ->
  (forall channel options,
      fetches (snd (Pusher.getChannel this channel options tr))
      = fetches tr
        ++ [signed_request this (js "GET")
              (js "/apps/" ++ Pusher.appId this ++ js "/channels/"
               ++ channel)
              unix_seconds None (info_text options) get_init])
  /\ (forall prefix options,
         fetches (snd (Pusher.getChannels this prefix options tr))
         = fetches tr
           ++ [signed_request this (js "GET")
                 (js "/apps/" ++ Pusher.appId this ++ js "/channels")
                 unix_seconds None
                 (prefix_text prefix ++ info_text options) get_init]).
Proof.
  intros Hrt Hsecret Hkey. split.
  - intros channel options. rewrite getChannel_run.
    apply read_run_request; try assumption.
    intros sig. now apply getChannel_query_text.
  - intros prefix options. rewrite getChannels_run.
    apply read_run_request; try assumption.
    intros sig. rewrite getChannels_query_text by assumption.
    now rewrite <- app_assoc.
Qed.

Lemma read_requests_carry_what_was_signed_witness :
  fetches
    (snd (Pusher.getChannels (rt := workers_runtime) demo_pusher
            (Some (js "presence-")) two_counts []))
  = [signed_request demo_pusher (js "GET") (js "/apps/123456/channels")
       1700000000 None
       (js "&filter_by_prefix=presence-&info=user_count%2Csubscription_count")
       get_init].
Proof.
  exact (proj2 (@read_requests_carry_what_was_signed workers_runtime
                  demo_pusher []
                  (reference_runtime_computes_hmac _ _ _)
                  ltac:(discriminate) eq_refl)
           (Some (js "presence-")) two_counts).
Defined.

(** ** Further properties: the validation of the authorization calls *)

Lemma count_others_hmac {rt : Runtime} tr raw data :
  count_others (tr ++ hmac_events raw data) = count_others tr.
Proof.
  unfold count_others, hmac_events. rewrite filter_app, length_app.
  destruct (subtle_importKey raw); cbn; lia.
Qed.

Lemma log_grows {rt : Runtime} {A : Type} (c : completion A) r tr raw data :
  (c, tr ++ hmac_events raw data) <> (r, tr).
Proof.
  intros E. injection E as _ E. apply (f_equal (@length _)) in E.
  rewrite length_app in E. unfold hmac_events in E. cbn [length] in E. lia.
Qed.

Lemma str_cases (s : jsstring) : s = [] \/ s <> [].
Proof. destruct s; [now left | right; discriminate]. Qed.

Ltac refute_growth :=
  match goal with
  | H : (_, _ ++ hmac_events _ _) = (_, _) |- _ =>
      exfalso; exact (@log_grows _ _ _ _ _ _ _ H)
  end.

Ltac settle_validation :=
  repeat split; intros;
  repeat match goal with
    | H : _ \/ _ |- _ => destruct H
    | H : _ /\ _ |- _ => destruct H
    end;
  try congruence; try discriminate; try refute_growth;
  try (rewrite count_others_hmac; reflexivity);
  try reflexivity;
  try (left; reflexivity);
  try (right; reflexivity);
  try (right; left; reflexivity);
  try (right; right; reflexivity);
  try match goal with
    | H : (Throw (JsError ?m), _) = (Throw (JsError ?n), _) |- _ =>
        exfalso; injection H as H; apply (f_equal (@length _)) in H;
        vm_compute in H; discriminate H
    end.

Lemma Pusher_validates_then_signs {rt : Runtime} (p : Pusher.t) :
  validates_then_signs (Pusher.authorizeChannel p)
    (Pusher.authenticatePresenceChannel p).
Proof.
  intros sid ch pd tr.
  destruct (str_cases sid) as [-> | Hs];
    [unfold Pusher.authorizeChannel, Pusher.authenticatePresenceChannel,
       throw; cbn [str_falsy orb snd]; settle_validation|].
  destruct (str_cases ch) as [-> | Hc];
    [unfold Pusher.authorizeChannel, Pusher.authenticatePresenceChannel,
       throw; rewrite (str_falsy_false Hs); cbn [str_falsy orb snd];
     settle_validation|].
  rewrite (Pusher_authorizeChannel_run p tr Hs Hc).
  destruct (ToBoolean pd) eqn:Hpd.
  - destruct (ToBoolean (Get pd (js "user_id"))) eqn:Hu.
    + rewrite (Pusher_presence_run p pd tr Hs Hc Hpd Hu). cbn [snd].
      settle_validation.
    + unfold Pusher.authenticatePresenceChannel, throw.
      rewrite (str_falsy_false Hs), (str_falsy_false Hc), Hpd, Hu.
      cbn [orb negb snd]. settle_validation.
  - unfold Pusher.authenticatePresenceChannel, throw.
    rewrite (str_falsy_false Hs), (str_falsy_false Hc), Hpd.
    cbn [orb negb snd]. settle_validation.
Qed.

Lemma PusherAuth_validates_then_signs {rt : Runtime} (a : PusherAuth.t) :
  validates_then_signs (PusherAuth.authorizeChannel a)
    (PusherAuth.authenticatePresenceChannel a).
Proof.
  intros sid ch pd tr.
  destruct (str_cases sid) as [-> | Hs];
    [unfold PusherAuth.authorizeChannel,
       PusherAuth.authenticatePresenceChannel, throw;
     cbn [str_falsy orb snd]; settle_validation|].
  destruct (str_cases ch) as [-> | Hc];
    [unfold PusherAuth.authorizeChannel,
       PusherAuth.authenticatePresenceChannel, throw;
     rewrite (str_falsy_false Hs); cbn [str_falsy orb snd];
     settle_validation|].
  rewrite (PusherAuth_authorizeChannel_run a tr Hs Hc).
  destruct (ToBoolean pd) eqn:Hpd.
  - destruct (ToBoolean (Get pd (js "user_id"))) eqn:Hu.
    + rewrite (PusherAuth_presence_run a pd tr Hs Hc Hpd Hu). cbn [snd].
      settle_validation.
    + unfold PusherAuth.authenticatePresenceChannel, throw.
      rewrite (str_falsy_false Hs), (str_falsy_false Hc), Hpd, Hu.
      cbn [orb negb snd]. settle_validation.
  - unfold PusherAuth.authenticatePresenceChannel, throw.
    rewrite (str_falsy_false Hs), (str_falsy_false Hc), Hpd.
    cbn [orb negb snd]. settle_validation.
Qed.

(** X14. In both classes the validation decides alone whether the
    signing primitive is reached.  [authorizeChannel] is rejected with its
    message and an untouched log exactly when the socket id or the channel
    is empty; [authenticatePresenceChannel] is rejected with the first
    message exactly when the socket id or the channel is empty or the
    member data is falsy, and with the [user_id] message exactly when
    those three are in order and [user_id] is missing or falsy.  No
    authorization call computes a digest, warns or sends a request. *)
Theorem authorization_validates_then_signs
    (rt : Runtime) (p : Pusher.t) (a : PusherAuth.t) :
  validates_then_signs (Pusher.authorizeChannel p)
    (Pusher.authenticatePresenceChannel p)
  /\ validates_then_signs (PusherAuth.authorizeChannel a)
       (PusherAuth.authenticatePresenceChannel a).
Proof.
  split; [apply Pusher_validates_then_signs
         | apply PusherAuth_validates_then_signs].
Qed.

(** ** Further properties: signatures as text *)

Lemma byte_hex_inverts_all (b : byte) : byte_hex_inverts b = true.
Proof. destruct b; vm_compute; reflexivity. Qed.

Lemma byte_hex_pair_back (b : byte) :
  exists h l,
    padStart (toString16 (Byte.to_N b)) 2 48%N = [h; l]
    /\ byte_of_hex_pair h l = Some b.
Proof.
  pose proof (byte_hex_inverts_all b) as H. unfold byte_hex_inverts in H.
  destruct (padStart (toString16 (Byte.to_N b)) 2 48%N)
    as [|h [|l [|x r]]]; try discriminate.
  exists h, l. split; [reflexivity|].
  destruct (byte_of_hex_pair h l) as [b'|]; [|discriminate].
  apply Byte.byte_dec_bl in H. now subst.
Qed.

Lemma bytes_of_hex_of_bytes arr : bytes_of_hex (hex_of_bytes arr) = Some arr.
Proof.
  unfold hex_of_bytes. rewrite join_empty_sep.
  induction arr as [|b arr IH]; [reflexivity|].
  destruct (byte_hex_pair_back b) as (h & l & E & Hb).
  cbn [map concat]. rewrite E. cbn [app bytes_of_hex].
  now rewrite Hb, IH.
Qed.

(** X15. The hex text that [computeHMAC], [createSignature] and
    [computeMD5] make of a digest loses nothing: every byte is written as
    two digits, so the text reads back as the bytes, and different digests
    give different texts. *)
Theorem hex_of_bytes_round_trip (arr other : list byte) :
  bytes_of_hex (hex_of_bytes arr) = Some arr
  /\ (arr <> other -> hex_of_bytes arr <> hex_of_bytes other).
Proof.
  split; [apply bytes_of_hex_of_bytes|].
  intros Hne E. apply Hne. apply (f_equal bytes_of_hex) in E.
  rewrite !bytes_of_hex_of_bytes in E. now injection E.
Qed.

Lemma hex_of_bytes_round_trip_witness :
  hex_of_bytes [x01; x10] <> hex_of_bytes [x11; x00].
Proof.
  apply (proj2 (hex_of_bytes_round_trip [x01; x10] [x11; x00])).
  discriminate.
Defined.

(** ** Further properties: the signed string *)

Lemma split_at_unit (x : N) (a b r r' : jsstring) :
  ~ In x a -> ~ In x b -> a ++ x :: r = b ++ x :: r' -> a = b /\ r = r'.
Proof.
  revert b. induction a as [|c a IH]; intros [|d b] Ha Hb E.
  - injection E as E. now split.
  - injection E as E1 E2. exfalso. apply Hb. now left.
  - injection E as E1 E2. exfalso. apply Ha. now left.
  - injection E as E1 E2. subst d.
    destruct (IH b) as [-> ->]; try assumption.
    + intros H. apply Ha. now right.
    + intros H. apply Hb. now right.
    + now split.
Qed.

Lemma url_safe_no_ampersand s : url_safe s = true -> ~ In 38%N s.
Proof.
  unfold url_safe. intros H Hin.
  rewrite forallb_forall in H. specialize (H _ Hin). discriminate H.
Qed.

Lemma uint_units_inj u v : uint_units u = uint_units v -> u = v.
Proof.
  revert v. induction u; intros v E; destruct v; try discriminate E;
    try reflexivity; cbn [uint_units] in E; injection E as E;
    f_equal; now apply IHu.
Qed.

Lemma uint_units_no_minus u r : uint_units u <> 45%N :: r.
Proof. destruct u; discriminate. Qed.

Lemma Number_toString_inj z z' :
  Number_toString z = Number_toString z' -> z = z'.
Proof.
  unfold Number_toString. intros E. apply DecimalZ.to_int_inj.
  destruct (Z.to_int z) as [u|u], (Z.to_int z') as [v|v].
  - f_equal. now apply uint_units_inj.
  - exfalso. exact (uint_units_no_minus _ E).
  - exfalso. symmetry in E. exact (uint_units_no_minus _ E).
  - injection E as E. f_equal. now apply uint_units_inj.
Qed.

Lemma md5_part_digest (md5 : option jsstring) :
  match md5 with
  | Some (c :: d) => js "&body_md5=" ++ c :: d
  | _ => []
  end
  = match effective_digest md5 with
    | [] => []
    | m => js "&body_md5=" ++ m
    end.
Proof. destruct md5 as [[|c d]|]; reflexivity. Qed.

Lemma stringToSign_inj
    (p q : Pusher.t) (method method' path path' : jsstring)
    (timestamp timestamp' : Z) (md5 md5' : option jsstring) :
  ~ In 10%N method -> ~ In 10%N method' ->
  ~ In 10%N path -> ~ In 10%N path' ->
  ~ In 38%N (Pusher.key p) -> ~ In 38%N (Pusher.key q) ->
  Pusher.stringToSign p method path timestamp md5
  = Pusher.stringToSign q method' path' timestamp' md5' ->
  method = method' /\ path = path' /\ Pusher.key p = Pusher.key q
  /\ timestamp = timestamp'
  /\ effective_digest md5 = effective_digest md5'.
Proof.
  intros Hm Hm' Hp Hp' Hk Hk' E.
  rewrite !stringToSign_canonical in E.
  unfold canonical_request, canonical_query, nl in E.
  rewrite !md5_part_digest in E.
  cbn [app] in E.
  apply split_at_unit in E; [|assumption ..]. destruct E as [-> E].
  apply split_at_unit in E; [|assumption ..]. destruct E as [-> E].
  apply app_inv_head in E.
  change (js "&auth_timestamp=") with (38%N :: js "auth_timestamp=") in E.
  cbn [app] in E.
  apply split_at_unit in E; [|assumption ..]. destruct E as [Ek E].
  apply app_inv_head in E.
  change (js "&auth_version=1.0") with (38%N :: js "auth_version=1.0") in E.
  cbn [app] in E.
  apply split_at_unit in E;
    [|apply url_safe_no_ampersand, Number_toString_url_safe ..].
  destruct E as [Et E]. apply Number_toString_inj in Et.
  apply app_inv_head in E.
  repeat split; try assumption.
  destruct (effective_digest md5) as [|c d],
    (effective_digest md5') as [|c' d']; try discriminate E;
    [reflexivity|].
  now apply app_inv_head in E.
Qed.

(** X16. The string that [createSignature] signs is unambiguous: when
    neither method nor path holds a line feed and the keys hold no [&],
    two requests that differ in the method, the path, the key, the
    timestamp or the digest (an absent digest counting as the empty one)
    are signed as different strings. *)
Theorem signed_strings_differ
    (p q : Pusher.t) (method method' path path' : jsstring)
    (timestamp timestamp' : Z) (md5 md5' : option jsstring) :
  ~ In 10%N method -> ~ In 10%N method' ->
  ~ In 10%N path -> ~ In 10%N path' ->
  ~ In 38%N (Pusher.key p) -> ~ In 38%N (Pusher.key q) ->
  method <> method' \/ path <> path' \/ Pusher.key p <> Pusher.key q
  \/ timestamp <> timestamp'
  \/ effective_digest md5 <> effective_digest md5' ->
  Pusher.stringToSign p method path timestamp md5
  <> Pusher.stringToSign q method' path' timestamp' md5'.
Proof.
  intros Hm Hm' Hp Hp' Hk Hk' Hdiff E.
  destruct (stringToSign_inj p q method method' path path' timestamp
              timestamp' md5 md5' Hm Hm' Hp Hp' Hk Hk' E)
    as (H1 & H2 & H3 & H4 & H5).
  tauto.
Qed.

Lemma signed_strings_differ_witness :
  Pusher.stringToSign demo_pusher (js "POST") (js "/apps/123456/events")
    1700000000 None
  <> Pusher.stringToSign demo_pusher (js "POST") (js "/apps/123456/events")
       1700000001 None.
Proof.
  assert (Hm : ~ In 10%N (js "POST"))
    by (vm_compute; intuition discriminate).
  assert (Hp : ~ In 10%N (js "/apps/123456/events"))
    by (vm_compute; intuition discriminate).
  assert (Hk : ~ In 38%N (Pusher.key demo_pusher))
    by (apply url_safe_no_ampersand; reflexivity).
  apply (@signed_strings_differ demo_pusher demo_pusher _ _ _ _
           1700000000 1700000001 None None Hm Hm Hp Hp Hk Hk).
  right. right. right. left. discriminate.
Defined.

(** ** Further properties: where the requests go *)

Lemma constructed_baseUrl config p :
  Pusher.constructor config = Normal p ->
  Pusher.baseUrl p ++ js "/apps/" ++ Pusher.appId p
  = (match cfg_useTLS config with
     | Some false => js "http"
     | _ => js "https"
     end)
    ++ js "://api-"
    ++ (match cfg_cluster config with
        | Some (c :: r) => c :: r
        | _ => js "mt1"
        end)
    ++ js ".pusher.com/apps/" ++ cfg_appId config.
Proof.
  intros H.
  destruct (constructor_fields _ H) as (Ha & _ & _ & Na & Nk & Ns).
  unfold Pusher.constructor in H.
  rewrite (str_falsy_false Na), (str_falsy_false Nk), (str_falsy_false Ns)
    in H.
  cbn [orb] in H. injection H as <-.
  cbn [Pusher.baseUrl Pusher.appId].
  change (js ".pusher.com/apps/") with (js ".pusher.com" ++ js "/apps/").
  destruct (cfg_useTLS config) as [[|]|];
    destruct (cfg_cluster config) as [[|c r]|]; cbn [str_falsy];
    repeat first [rewrite <- app_assoc | progress cbn [app]]; reflexivity.
Qed.

Section Endpoint.
Context {rt : Runtime}.
Variable config : PusherConfig.
Variable this : Pusher.t.
Hypothesis Hnew : Pusher.constructor config = Normal this.

Lemma url_on_app_endpoint rest init :
  on_app_endpoint config
    (EvFetch (Pusher.baseUrl this ++ js "/apps/" ++ Pusher.appId this
              ++ js "/" ++ rest) init).
Proof.
  exists rest, init. f_equal.
  rewrite !app_assoc. rewrite <- (app_assoc (Pusher.baseUrl this)).
  rewrite (@constructed_baseUrl config this Hnew).
  repeat rewrite <- app_assoc. reflexivity.
Qed.

Lemma write_run_stays endpoint body tr e :
  In e (fetches (snd (write_run this (js "/" ++ endpoint) body tr))) ->
  In e (fetches tr) \/ on_app_endpoint config e.
Proof.
  unfold write_run. destruct (subtle_hmac _ _) as [sig|err]; cbn [snd];
    rewrite !fetches_app, fetches_md5_events, fetches_hmac_events;
    cbn [app fetches filter is_fetch]; intros Hin.
  - apply in_app_or in Hin. destruct Hin as [Hin | [<- | []]]; [now left|].
    right. unfold write_url.
    rewrite <- !app_assoc. apply url_on_app_endpoint.
  - rewrite app_nil_r in Hin. now left.
Qed.

Lemma read_run_stays failure path query tr e :
  In e (fetches
          (snd (read_run this failure
                  (js "/apps/" ++ Pusher.appId this ++ js "/" ++ path)
                  query tr))) ->
  In e (fetches tr) \/ on_app_endpoint config e.
Proof.
  unfold read_run. destruct (subtle_hmac _ _) as [sig|err]; cbn [snd];
    rewrite !fetches_app, fetches_hmac_events;
    cbn [app fetches filter is_fetch]; intros Hin.
  - apply in_app_or in Hin. destruct Hin as [Hin | [<- | []]]; [now left|].
    right. rewrite <- !app_assoc. apply url_on_app_endpoint.
  - rewrite app_nil_r in Hin. now left.
Qed.
End Endpoint.

(** X17. The REST calls of a constructed instance send requests only
    to the REST interface of its own application: every request that
    [trigger], [triggerBatch], [getChannel] or [getChannels] adds to the
    log goes to [<protocol>://api-<cluster>.pusher.com/apps/<appId>/...],
    the protocol being [http] only when [useTLS] is [false] and the
    cluster [mt1] unless the configuration names one. *)
Theorem rest_calls_stay_on_the_app_endpoint
    (rt : Runtime) (config : PusherConfig) (this : Pusher.t)
    (tr : list event) (e : event) :
  Pusher.constructor config = Normal this ->
  (forall call,
      In e (fetches (snd (Pusher.trigger this call tr))) ->
      In e (fetches tr) \/ on_app_endpoint config e)
  /\ (forall events,
         In e (fetches (snd (Pusher.triggerBatch this events tr))) ->
         In e (fetches tr) \/ on_app_endpoint config e)
  /\ (forall channel options,
         In e (fetches (snd (Pusher.getChannel this channel options tr))) ->
         In e (fetches tr) \/ on_app_endpoint config e)
  /\ (forall prefix options,
         In e (fetches (snd (Pusher.getChannels this prefix options tr))) ->
         In e (fetches tr) \/ on_app_endpoint config e).
Proof.
  intros Hnew. repeat split.
  - intros call. rewrite trigger_run.
    change (js "/events") with (js "/" ++ js "events").
    now apply write_run_stays.
  - intros events. rewrite triggerBatch_run.
    change (js "/batch_events") with (js "/" ++ js "batch_events").
    now apply write_run_stays.
  - intros channel options. rewrite getChannel_run.
    change (js "/channels/") with (js "/" ++ js "channels/").
    rewrite <- app_assoc. now apply read_run_stays.
  - intros prefix options. rewrite getChannels_run.
    change (js "/channels") with (js "/" ++ js "channels").
    now apply read_run_stays.
Qed.

Lemma rest_calls_stay_on_the_app_endpoint_witness :
  Forall
    (fun e =>
       exists rest init,
         e = EvFetch (js "https://api-mt1.pusher.com/apps/123456/" ++ rest)
               init)
    (fetches
       (snd (Pusher.trigger (rt := workers_runtime) demo_pusher hello_call
               []))).
Proof.
  apply Forall_forall. intros e Hin.
  destruct (proj1 (@rest_calls_stay_on_the_app_endpoint workers_runtime
                     demo_config demo_pusher [] e demo_pusher_constructed)
              hello_call Hin) as [[] | (rest & init & ->)].
  exists rest, init. reflexivity.
Defined.
